(** * bot/server.go: subscription bookkeeping on resource annotations

    A shallow embedding of [bot/server.go] of argocd-notifications.
    Go's [map[string]string] is a [gmap string string]; indexing a map at a
    missing key yields the empty string, which [valueAt] writes out. Calls to
    the Kubernetes dynamic client are the nodes of a small program tree
    ([prog]); a [Client] gives them a meaning on a world state and [exec]
    records every call that was made. *)

From Stdlib Require Import ZArith Ascii.
From stdpp Require Import gmap strings list fin_maps pretty.

Open Scope Z_scope.
Open Scope string_scope.

(** ** Pieces of the Go standard library used by server.go *)

Module strings.

(** [strings.Join(elems, sep)]. *)
Fixpoint Join (elems : list string) (sep : string) : string :=
  match elems with
  | [] => ""
  | [e] => e
  | e :: rest => e +:+ sep +:+ Join rest sep
  end.

(** [strings.Split(s, sep)] for a separator of one byte: always at least
    one field, [Split("", ",")] being [[""]]. *)
Fixpoint Split (s : string) (sep : ascii) : list string :=
  match s with
  | EmptyString => [""]
  | String c rest =>
      if decide (c = sep) then "" :: Split rest sep
      else match Split rest sep with
           | field :: fields => String c field :: fields
           | [] => [String c ""]
           end
  end.

(** The byte [sep] occurs in [s]. *)
Fixpoint Contains (s : string) (sep : ascii) : bool :=
  match s with
  | EmptyString => false
  | String c rest => if decide (c = sep) then true else Contains rest sep
  end.

End strings.

Module fmt.

(** [fmt.Sprintf("%s.%s", a, b)]. *)
Definition Sprintf_s_dot_s (a b : string) : string := a +:+ "." +:+ b.

(** [fmt.Sprintf("%s/%s", a, b)]. *)
Definition Sprintf_s_slash_s (a b : string) : string := a +:+ "/" +:+ b.

(** The verb [%d] on a non-negative count. *)
Definition d (n : nat) : string := pretty n.

End fmt.

(** ** Errors

    [errors.New] allocates a fresh error value, so an error made in
    server.go is never equal to one handed back by a collaborator (the
    recipients package, the dynamic client). [foreign] keeps the two
    apart. *)

Inductive error : Type :=
| errors_New (msg : string)
| foreign (msg : string).

#[global] Instance error_eq_dec : EqDecision error.
Proof. solve_decision. Defined.

(** What a collaborator hands back: a value, or an error message. *)
Inductive result (A : Type) : Type :=
| Ok (a : A)
| Fail (msg : string).
Arguments Ok {A} a.
Arguments Fail {A} msg.

(** ** Data *)

(** Go's [m[k]] on a [map[string]string]: the zero value when [k] is
    missing. *)
Definition valueAt (m : gmap string string) (k : string) : string :=
  default "" (m !! k).

(** The part of [unstructured.Unstructured] that server.go reads. *)
Record Unstructured : Type := {
  GetName : string;
  GetNamespace : string;
  GetAnnotations : gmap string string
}.

(** [UpdateSubscription] and [Command] are declared next to server.go in
    package bot; the fields are the ones server.go reads. A nil pointer is
    [None]. *)
Record UpdateSubscription : Type := {
  App : string;
  Project : string;
  Trigger : string
}.

Record Command : Type := {
  Recipient : string;
  ListSubscriptions : option unit;
  Subscribe : option UpdateSubscription;
  Unsubscribe : option UpdateSubscription
}.

(** The two fields of [server]: which collection a client is bound to. *)
Inductive Collection : Type := appClient | appProjClient.

#[global] Instance Collection_eq_dec : EqDecision Collection.
Proof. solve_decision. Defined.

(** The body of a merge patch, as the document its reader decodes from the
    bytes: the object under metadata.annotations, a null member being
    [None]. *)
Record PatchData : Type := MetadataAnnotations {
  patchAnnotations : gmap string (option string)
}.

(** ** Calls to the dynamic client *)

Inductive Call : Type :=
| CGet (c : Collection) (name : string)
| CList (c : Collection)
| CPatch (c : Collection) (name : string) (data : PatchData).

Definition call_collection (c : Call) : Collection :=
  match c with
  | CGet c _ | CList c | CPatch c _ _ => c
  end.

Definition is_patch (c : Call) : bool :=
  match c with CPatch _ _ _ => true | _ => false end.

(** A method of [server]: a tree whose inner nodes are client calls, each
    continuing with whatever the client answers. *)
Inductive prog (A : Type) : Type :=
| ret (a : A)
| Get (c : Collection) (name : string) (k : result Unstructured → prog A)
| List (c : Collection) (k : result (list Unstructured) → prog A)
| Patch (c : Collection) (name : string) (data : PatchData)
        (k : result Unstructured → prog A).
Arguments ret {A} a.
Arguments Get {A} c name k.
Arguments List {A} c k.
Arguments Patch {A} c name data k.

(** A client implementation over a world state [W]. *)
Record Client (W : Type) : Type := {
  doGet : Collection → string → W → result Unstructured * W;
  doList : Collection → W → result (list Unstructured) * W;
  doPatch : Collection → string → PatchData → W → result Unstructured * W
}.
Arguments doGet {W} _ _ _ _.
Arguments doList {W} _ _ _.
Arguments doPatch {W} _ _ _ _ _.

(** Runs a program: the value returned, the final world and the calls made,
    in order. *)
Fixpoint exec {W A} (cl : Client W) (p : prog A) (w : W) : A * W * list Call :=
  match p with
  | ret a => (a, w, [])
  | Get c name k =>
      let '(r, w1) := doGet cl c name w in
      let '(a, w2, calls) := exec cl (k r) w1 in
      (a, w2, CGet c name :: calls)
  | List c k =>
      let '(r, w1) := doList cl c w in
      let '(a, w2, calls) := exec cl (k r) w1 in
      (a, w2, CList c :: calls)
  | Patch c name data k =>
      let '(r, w1) := doPatch cl c name data w in
      let '(a, w2, calls) := exec cl (k r) w1 in
      (a, w2, CPatch c name data :: calls)
  end.

(** ** The pure helpers of server.go *)

(** A [range] over a Go map visits the keys in no fixed order; [map_fold]
    visits them in one of the possible orders. In the loops below a turn
    writes only the key it visits, so the order does not show in the
    result. *)
Definition copyStringMap (m : gmap string string) : gmap string string :=
  map_fold (λ k v out, <[k := v]> out) ∅ m.

Fixpoint findStringIndex_from (i : Z) (items : list string) (item : string) : Z :=
  match items with
  | [] => -1
  | x :: rest =>
      if decide (x = item) then i else findStringIndex_from (i + 1) rest item
  end.

Definition findStringIndex (items : list string) (item : string) : Z :=
  findStringIndex_from 0 items item.

Definition annotationsPatch (old new : gmap string string)
  : gmap string (option string) :=
  let patch :=
    map_fold (λ k val patch,
                if decide (val ≠ valueAt old k) then <[k := Some val]> patch
                else patch) ∅ new in
  map_fold (λ k _ patch,
              match new !! k with
              | None => <[k := None]> patch
              | Some _ => patch
              end) patch old.

(** Modelled from the spec: [recipients.ParseRecipients], the Decode of the
    annotation codec, which is not part of server.go: "splits on comma;
    empty value yields an empty sequence". *)
Definition ParseRecipients (value : string) : list string :=
  if decide (value = "") then [] else strings.Split value ","%char.

(** [append(items[:i], items[i+1:]...)]. *)
Definition remove_at (i : Z) (items : list string) : list string :=
  take (Z.to_nat i) items ++ drop (Z.to_nat (i + 1)) items.

(** The switch at the head of [updateSubscription]: the name and the
    client it settles on, or nothing in the default case. *)
Definition selectClient (opts : UpdateSubscription) : option (string * Collection) :=
  if decide (App opts ≠ "") then Some (App opts, appClient)
  else if decide (Project opts ≠ "") then Some (Project opts, appProjClient)
  else None.

Section Server.

(** The constant [recipients.AnnotationKey]. *)
Variable AnnotationKey : string.

(** [recipients.GetAnnotationKeys]: which keys of the map a trigger
    selects. The policy belongs to the recipients package. *)
Variable GetAnnotationKeys : gmap string string → string → list string.

(** [json.Marshal], of Go's encoding/json, applied to the document
    [{"metadata": {"annotations": annotationsPatch}}]: the body, or an
    error. Nothing is assumed of it; in particular the body need not hold
    the patch as it is, since encoding/json rewrites bytes that are not
    valid UTF-8. *)
Variable json_Marshal : gmap string (option string) → PatchData * option error.

(** [recipients.ParseDestinationAndTemplate] and
    [recipients.GetDestinations]; a destination set is a
    [map[Destination]bool]. *)
Context {Destination : Type} `{Countable Destination}.
Variable ParseDestinationAndTemplate : string → result (Destination * string).
Variable GetDestinations : gmap string string → result (gmap Destination bool).

Definition addSubscription (recipient trigger : string)
    (annotations : gmap string string) : gmap string string :=
  let annotations := copyStringMap annotations in
  let annotationKey := AnnotationKey in
  let annotationKey :=
    if decide (trigger ≠ "") then fmt.Sprintf_s_dot_s trigger annotationKey
    else annotationKey in
  let existingRecipients := ParseRecipients (valueAt annotations annotationKey) in
  if decide (findStringIndex existingRecipients recipient < 0) then
    <[annotationKey := strings.Join (existingRecipients ++ [recipient]) ","]>
      annotations
  else annotations.

(** One turn of the loop of [removeSubscription]. *)
Definition removeSubscription_step (recipient : string)
    (annotations : gmap string string) (k : string) : gmap string string :=
  let existingRecipients := ParseRecipients (valueAt annotations k) in
  let index := findStringIndex existingRecipients recipient in
  if decide (index > -1) then
    let newRecipients := remove_at index existingRecipients in
    if decide (Z.of_nat (length newRecipients) > 0) then
      <[k := strings.Join newRecipients ","]> annotations
    else delete k annotations
  else annotations.

Definition removeSubscription (recipient trigger : string)
    (annotations : gmap string string) : gmap string string :=
  let annotations := copyStringMap annotations in
  foldl (removeSubscription_step recipient) annotations
        (GetAnnotationKeys annotations trigger).

(** ** The methods of server *)

Definition updateSubscription (recipient : string) (subscribe : bool)
    (opts : UpdateSubscription) : prog (string * option error) :=
  match selectClient opts with
  | None =>
      ret ("", Some (errors_New
             "either application or project name must be specified"))
  | Some (name, client) =>
      Get client name (λ r,
        match r with
        | Fail err => ret ("", Some (foreign err))
        | Ok obj =>
            let oldAnnotations := copyStringMap (GetAnnotations obj) in
            let newAnnotations :=
              if subscribe
              then addSubscription recipient (Trigger opts) (GetAnnotations obj)
              else removeSubscription recipient (Trigger opts) (GetAnnotations obj) in
            let patch := annotationsPatch oldAnnotations newAnnotations in
            if decide (Z.of_nat (size patch) > 0) then
              match json_Marshal patch with
              | (_, Some err) => ret ("", Some err)
              | (patchData, None) =>
                  Patch client name patchData (λ r,
                    match r with
                    | Fail err => ret ("", Some (foreign err))
                    | Ok _ => ret ("subscription updated", None)
                    end)
              end
            else ret ("subscription updated", None)
        end)
  end.

(** One of the two scanning loops of [listSubscriptions]: the names
    collected so far, or the first error. *)
Fixpoint scan (dest : Destination) (items : list Unstructured)
    (found : list string) : result (list string) :=
  match items with
  | [] => Ok found
  | item :: rest =>
      match GetDestinations (GetAnnotations item) with
      | Fail err => Fail err
      | Ok allDest =>
          if default false (allDest !! dest)
          then scan dest rest
                 (found ++ [fmt.Sprintf_s_slash_s (GetNamespace item) (GetName item)])
          else scan dest rest found
      end
  end.

(** The text built at the end of [listSubscriptions]. *)
Definition response (recipient : string) (apps appProjs : list string) : string :=
  let response := "The " +:+ recipient +:+ " has no subscriptions." in
  if decide (Z.of_nat (length apps) > 0 ∨ Z.of_nat (length appProjs) > 0) then
    let response :=
      "The " +:+ recipient +:+ " is subscribed to " +:+ fmt.d (length apps)
      +:+ " applications and " +:+ fmt.d (length appProjs) +:+ " projects." in
    let response :=
      if decide (Z.of_nat (length apps) > 0)
      then response +:+ "
Applications: " +:+ strings.Join apps ", " +:+ "."
      else response in
    if decide (Z.of_nat (length appProjs) > 0)
    then response +:+ "
Projects: " +:+ strings.Join appProjs ", " +:+ "."
    else response
  else response.

Definition listSubscriptions (recipient : string)
    : prog (string * option error) :=
  match ParseDestinationAndTemplate recipient with
  | Fail err => ret ("", Some (foreign err))
  | Ok (dest, _) =>
      List appClient (λ r,
        match r with
        | Fail err => ret ("", Some (foreign err))
        | Ok appList =>
            match scan dest appList [] with
            | Fail err => ret ("", Some (foreign err))
            | Ok apps =>
                List appProjClient (λ r,
                  match r with
                  | Fail err => ret ("", Some (foreign err))
                  | Ok appProjList =>
                      match scan dest appProjList [] with
                      | Fail err => ret ("", Some (foreign err))
                      | Ok appProjs => ret (response recipient apps appProjs, None)
                      end
                  end)
            end
        end)
  end.

Definition execute (cmd : Command) : prog (string * option error) :=
  match ListSubscriptions cmd, Subscribe cmd, Unsubscribe cmd with
  | Some _, _, _ => listSubscriptions (Recipient cmd)
  | None, Some opts, _ => updateSubscription (Recipient cmd) true opts
  | None, None, Some opts => updateSubscription (Recipient cmd) false opts
  | None, None, None => ret ("", Some (errors_New "unknown command"))
  end.

End Server.

(** The AnnotationKey of the annotation codec, in the words of the
    specification: the base key if the trigger is empty, else
    ["<trigger>.<base>"]. *)
Definition AnnotationKey_spec (base trigger : string) : string :=
  match trigger with
  | EmptyString => base
  | _ => trigger +:+ "." +:+ base
  end.

(** No decoded recipient list of the map holds a recipient twice. *)
Definition NoDupLists (annotations : gmap string string) : Prop :=
  ∀ k value, annotations !! k = Some value → NoDup (ParseRecipients value).

(** A run of [addSubscription] calls, each with its recipient and trigger. *)
Definition addSubscriptions (AnnotationKey : string)
    (ops : list (string * string)) (annotations : gmap string string)
    : gmap string string :=
  foldl (λ annotations op, addSubscription AnnotationKey op.1 op.2 annotations)
        annotations ops.

(** The name a call is addressed to, when it has one. *)
Definition call_name (c : Call) : option string :=
  match c with
  | CGet _ name | CPatch _ name _ => Some name
  | CList _ => None
  end.

(** The annotations [updateSubscription] computes from a fetched object. *)
Definition mutated (AnnotationKey : string)
    (GetAnnotationKeys : gmap string string → string → list string)
    (recipient : string) (subscribe : bool) (trigger : string)
    (obj : Unstructured) : gmap string string :=
  if subscribe
  then addSubscription AnnotationKey recipient trigger (GetAnnotations obj)
  else removeSubscription GetAnnotationKeys recipient trigger (GetAnnotations obj).

(** One possible key policy, for running [removeSubscription] on concrete
    maps: every key of the map when the trigger is empty, the single key of
    the trigger otherwise. *)
Definition keys_of_trigger (base : string) (annotations : gmap string string)
    (trigger : string) : list string :=
  filter (λ k, trigger = "" ∨ k = fmt.Sprintf_s_dot_s trigger base)
         (map fst (map_to_list annotations)).

(** ** An in-memory client

    The stand-in used to run the methods on concrete clusters: each
    collection is a map from names to objects, [Get] of a missing name
    fails, and [Patch] applies the JSON merge patch to the annotations of
    the named object. *)

Module fake.

Definition World : Type := Collection → gmap string Unstructured.

(** Merge patch on an annotation map: a value sets the key, a null
    removes it. *)
Definition merge (patch : gmap string (option string))
    (annotations : gmap string string) : gmap string string :=
  map_fold (λ k v acc,
              match v with
              | Some s => <[k := s]> acc
              | None => delete k acc
              end) annotations patch.

Definition get (c : Collection) (name : string) (w : World)
    : result Unstructured * World :=
  match w c !! name with
  | Some obj => (Ok obj, w)
  | None => (Fail "not found", w)
  end.

Definition list (c : Collection) (w : World)
    : result (list Unstructured) * World :=
  (Ok (map snd (map_to_list (w c))), w).

Definition patch (c : Collection) (name : string) (data : PatchData)
    (w : World) : result Unstructured * World :=
  match w c !! name with
  | Some obj =>
      let obj' := {| GetName := GetName obj;
                     GetNamespace := GetNamespace obj;
                     GetAnnotations :=
                       merge (patchAnnotations data) (GetAnnotations obj) |} in
      (Ok obj', λ c', if decide (c' = c) then <[name := obj']> (w c') else w c')
  | None => (Fail "not found", w)
  end.

Definition client : Client World :=
  {| doGet := get; doList := list; doPatch := patch |}.

End fake.

(** ** Stand-ins for the recipients package

    Instances of the two functions [listSubscriptions] is parameterised by,
    for running it on concrete clusters: a recipient is
    [service:address?template], and a resource's destinations are those of
    every recipient listed under any of its keys. *)

Module sample.

Definition ParseDestinationAndTemplate (recipient : string)
    : result (string * string) :=
  match strings.Split recipient "?" with
  | dest :: template =>
      if strings.Contains dest ":" then Ok (dest, strings.Join template "?")
      else Fail ("invalid recipient " +:+ recipient)
  | [] => Fail ("invalid recipient " +:+ recipient)
  end.

Fixpoint destinations (recipients : list string) (acc : gmap string bool)
    : result (gmap string bool) :=
  match recipients with
  | [] => Ok acc
  | recipient :: rest =>
      match ParseDestinationAndTemplate recipient with
      | Fail err => Fail err
      | Ok (dest, _) => destinations rest (<[dest := true]> acc)
      end
  end.

Definition GetDestinations (annotations : gmap string string)
    : result (gmap string bool) :=
  destinations
    (concat (map (λ kv, ParseRecipients kv.2) (map_to_list annotations))) ∅.

Definition AnnotationKey : string := "notified.argoproj.io".

(** Every byte of the string is below 0x80. *)
Definition ascii_only (s : string) : bool :=
  forallb (λ a, (nat_of_ascii a <? 128)%nat) (String.list_ascii_of_string s).

(** An encoder for patches whose keys and values are ASCII, where the
    document read back from the body of encoding/json is the patch itself;
    it refuses every other patch. *)
Definition json_Marshal (patch : gmap string (option string))
    : PatchData * option error :=
  if forallb (λ kv, ascii_only kv.1 && from_option ascii_only true kv.2)
             (map_to_list patch)
  then (MetadataAnnotations patch, None)
  else (MetadataAnnotations ∅, Some (foreign "sample encoder: ASCII only")).

Definition object (namespace name : string) (annotations : gmap string string)
    : Unstructured :=
  {| GetName := name; GetNamespace := namespace; GetAnnotations := annotations |}.

(** A cluster: application [guestbook] has one subscriber, application
    [broken] carries a value that does not parse, project [default] has
    no annotations. *)
Definition cluster : fake.World := λ c,
  match c with
  | appClient =>
      {[ "guestbook" := object "argocd" "guestbook" {[ AnnotationKey := "slack:ops" ]} ]}
  | appProjClient =>
      {[ "default" := object "argocd" "default" ∅ ]}
  end.

Definition broken_cluster : fake.World := λ c,
  match c with
  | appClient =>
      {[ "broken" := object "argocd" "broken" {[ AnnotationKey := "nobody" ]} ]}
  | appProjClient => ∅
  end.

End sample.

(** ** The request handler *)

(** [err.Error()], which is also what the verb [%v] prints for an error. *)
Definition Error (err : error) : string :=
  match err with
  | errors_New msg | foreign msg => msg
  end.

(** Running [p], then [f] on what it returned. *)
Fixpoint bind {A B} (p : prog A) (f : A → prog B) : prog B :=
  match p with
  | ret a => f a
  | Get c name k => Get c name (λ r, bind (k r) f)
  | List c k => List c (λ r, bind (k r) f)
  | Patch c name data k => Patch c name data (λ r, bind (k r) f)
  end.

Section Handler.

Variable AnnotationKey : string.
Variable GetAnnotationKeys : gmap string string → string → list string.
Variable json_Marshal : gmap string (option string) → PatchData * option error.
Context {Destination : Type} `{Countable Destination}.
Variable ParseDestinationAndTemplate : string → result (Destination * string).
Variable GetDestinations : gmap string string → result (gmap Destination bool).

(** The [Adapter] interface is declared next to server.go. [Parse] turns a
    request into a command or fails; [SendResponse] writes a text to the
    response writer. The closure returned by [handler] calls [SendResponse]
    once on each of its paths: the program returns the text it sends. *)
Context {Request : Type}.
Variable Parse : Request → result Command.

Definition handler (r : Request) : prog string :=
  match Parse r with
  | Fail err => ret err
  | Ok cmd =>
      bind (execute AnnotationKey GetAnnotationKeys json_Marshal
              ParseDestinationAndTemplate GetDestinations cmd)
           (λ '(res, err),
              match err with
              | Some err => ret ("cannot execute command: " +:+ Error err)
              | None => ret res
              end)
  end.

End Handler.

(** ** Helpers for stating what the methods compute *)

(** The item lists [dest] among its destinations. *)
Definition lists_dest {Destination : Type} `{Countable Destination}
    (GetDestinations : gmap string string → result (gmap Destination bool))
    (dest : Destination) (item : Unstructured) : bool :=
  match GetDestinations (GetAnnotations item) with
  | Ok allDest => default false (allDest !! dest)
  | Fail _ => false
  end.

(** The [namespace/name] of the items that list [dest], in order. *)
Definition subscribed {Destination : Type} `{Countable Destination}
    (GetDestinations : gmap string string → result (gmap Destination bool))
    (dest : Destination) (items : list Unstructured) : list string :=
  map (λ item, fmt.Sprintf_s_slash_s (GetNamespace item) (GetName item))
      (filter (λ item, lists_dest GetDestinations dest item = true) items).

(** A client whose every call fails, for running the error paths. *)
Definition unavailable : Client unit :=
  {| doGet := λ _ _ w, (Fail "unavailable", w);
     doList := λ _ w, (Fail "unavailable", w);
     doPatch := λ _ _ _ w, (Fail "unavailable", w) |}.

(** A client that serves [sample.cluster] but refuses every [Patch]. *)
Definition read_only : Client fake.World :=
  {| doGet := fake.get;
     doList := fake.list;
     doPatch := λ _ _ _ w, (Fail "forbidden", w) |}.

(** * Properties *)

(** ** Maps *)

Lemma valueAt_lookup_Some (m : gmap string string) k v :
  m !! k = Some v → valueAt m k = v.
Proof. unfold valueAt. by intros ->. Qed.

Lemma valueAt_lookup_None (m : gmap string string) k :
  m !! k = None → valueAt m k = "".
Proof. unfold valueAt. by intros ->. Qed.

Lemma valueAt_insert_eq (m : gmap string string) k v :
  valueAt (<[k := v]> m) k = v.
Proof. unfold valueAt. by rewrite lookup_insert_eq. Qed.

Lemma valueAt_insert_ne (m : gmap string string) k k' v :
  k ≠ k' → valueAt (<[k := v]> m) k' = valueAt m k'.
Proof. intros. unfold valueAt. by rewrite lookup_insert_ne. Qed.

Lemma valueAt_delete_eq (m : gmap string string) k :
  valueAt (delete k m) k = "".
Proof. unfold valueAt. by rewrite lookup_delete_eq. Qed.

Lemma valueAt_delete_ne (m : gmap string string) k k' :
  k ≠ k' → valueAt (delete k m) k' = valueAt m k'.
Proof. intros. unfold valueAt. by rewrite lookup_delete_ne. Qed.

(** The copy has the entries of the original. *)
Lemma copyStringMap_id (m : gmap string string) : copyStringMap m = m.
Proof.
  unfold copyStringMap.
  apply (map_fold_weak_ind (λ out m, out = m)); [done|].
  by intros k v m' out _ ->.
Qed.

(** ** annotationsPatch, key by key *)

(** After the first loop: an entry for each key of [new] whose value is not
    what indexing [old] gives. *)
Lemma annotationsPatch_first_loop (old new : gmap string string) k :
  map_fold (λ k val patch,
              if decide (val ≠ valueAt old k) then <[k := Some val]> patch
              else patch) (∅ : gmap string (option string)) new !! k
  = match new !! k with
    | Some val => if decide (val ≠ valueAt old k) then Some (Some val) else None
    | None => None
    end.
Proof.
  revert k.
  apply (map_fold_weak_ind (λ (patch : gmap string (option string)) new, ∀ k,
    patch !! k = match new !! k with
                 | Some val =>
                     if decide (val ≠ valueAt old k) then Some (Some val) else None
                 | None => None
                 end)).
  - intros k. by rewrite !lookup_empty.
  - intros i x m patch Hi IH k.
    destruct (decide (i = k)) as [->|Hne].
    + rewrite lookup_insert_eq. case_decide.
      * by rewrite lookup_insert_eq.
      * by rewrite IH, Hi.
    + rewrite (lookup_insert_ne m) by done. case_decide.
      * by rewrite lookup_insert_ne.
      * apply IH.
Qed.

(** After the second loop: a nil entry for each key of [old] missing from
    [new]; the other entries are those of the first loop. *)
Lemma annotationsPatch_second_loop (old new : gmap string string)
    (patch0 : gmap string (option string)) k :
  map_fold (λ k (_ : string) patch,
              match new !! k with
              | None => <[k := None]> patch
              | Some _ => patch
              end) patch0 old !! k
  = match old !! k, new !! k with
    | Some _, None => Some None
    | _, _ => patch0 !! k
    end.
Proof.
  revert k.
  apply (map_fold_weak_ind (λ (patch : gmap string (option string)) old, ∀ k,
    patch !! k = match old !! k, new !! k with
                 | Some _, None => Some None
                 | _, _ => patch0 !! k
                 end)).
  - intros k. by rewrite lookup_empty.
  - intros i x m patch Hi IH k.
    destruct (decide (i = k)) as [->|Hne].
    + rewrite lookup_insert_eq. destruct (new !! k) eqn:Hn.
      * by rewrite IH, Hi.
      * by rewrite lookup_insert_eq.
    + rewrite (lookup_insert_ne m) by done. destruct (new !! i).
      * apply IH.
      * rewrite lookup_insert_ne by done. apply IH.
Qed.

Lemma annotationsPatch_lookup (old new : gmap string string) k :
  annotationsPatch old new !! k
  = match new !! k with
    | Some val => if decide (val ≠ valueAt old k) then Some (Some val) else None
    | None => match old !! k with Some _ => Some None | None => None end
    end.
Proof.
  unfold annotationsPatch.
  rewrite annotationsPatch_second_loop, annotationsPatch_first_loop.
  destruct (old !! k), (new !! k); done.
Qed.

Lemma annotationsPatch_same (m : gmap string string) : annotationsPatch m m = ∅.
Proof.
  apply map_eq. intros k.
  rewrite annotationsPatch_lookup, lookup_empty.
  destruct (m !! k) eqn:Hk; [|done].
  rewrite (valueAt_lookup_Some _ _ _ Hk). by case_decide.
Qed.

(** ** Joining and splitting on a separator byte *)

Lemma append_String_ne_empty (s : string) c t : s +:+ String c t ≠ "".
Proof. by destruct s. Qed.


(** No field of a split holds the separator. *)
Lemma Split_fields s sep :
  Forall (λ field, strings.Contains field sep = false) (strings.Split s sep).
Proof.
  induction s as [|c s IH]; simpl.
  - by repeat constructor.
  - case_decide as Hc.
    + by constructor.
    + destruct (strings.Split s sep) as [|field fields].
      * repeat constructor. simpl. by rewrite decide_False.
      * inversion_clear IH. constructor; [|done].
        simpl. by rewrite decide_False.
Qed.

Lemma Split_no_sep s sep :
  strings.Contains s sep = false → strings.Split s sep = [s].
Proof.
  induction s as [|c s IH]; simpl; [done|].
  case_decide; [done|]. intros Hs. by rewrite IH.
Qed.

Lemma Split_app_sep s t sep :
  strings.Contains s sep = false →
  strings.Split (s +:+ String sep t) sep = s :: strings.Split t sep.
Proof.
  induction s as [|c s IH]; simpl.
  - intros _. by rewrite decide_True.
  - case_decide; [done|]. intros Hs. by rewrite IH.
Qed.

(** Splitting undoes joining, for a list that has a field and whose fields
    are free of the separator. *)
Lemma Split_Join (l : list string) sep :
  l ≠ [] →
  Forall (λ field, strings.Contains field sep = false) l →
  strings.Split (strings.Join l (String sep "")) sep = l.
Proof.
  induction l as [|e l IH]; [done|]. intros _ Hl.
  inversion_clear Hl as [|? ? He Hl'].
  destruct l as [|e' l].
  - simpl. by apply Split_no_sep.
  - change (strings.Join (e :: e' :: l) (String sep ""))
      with (e +:+ String sep (strings.Join (e' :: l) (String sep ""))).
    rewrite Split_app_sep by done. by rewrite IH.
Qed.

Lemma Join_empty (l : list string) sep :
  strings.Join l (String sep "") = "" → l = [] ∨ l = [""].
Proof.
  destruct l as [|e [|e' l]]; simpl.
  - by left.
  - intros ->. by right.
  - intros Habs. by apply append_String_ne_empty in Habs.
Qed.

(** ** Decoding recipient lists *)

Lemma ParseRecipients_empty : ParseRecipients "" = [].
Proof. done. Qed.

Lemma ParseRecipients_fields value :
  Forall (λ r, strings.Contains r "," = false) (ParseRecipients value).
Proof.
  unfold ParseRecipients. case_decide; [constructor|apply Split_fields].
Qed.

Lemma ParseRecipients_Join (l : list string) :
  Forall (λ r, strings.Contains r "," = false) l →
  l ≠ [""] →
  ParseRecipients (strings.Join l ",") = l.
Proof.
  intros Hl Hne. unfold ParseRecipients. case_decide as Hj.
  - apply Join_empty in Hj as [->| ->]; done.
  - apply Split_Join; [|done]. by intros ->.
Qed.

(** ** findStringIndex *)

Lemma findStringIndex_from_spec i (items : list string) item :
  (findStringIndex_from i items item = -1 ∧ item ∉ items)
  ∨ (∃ n : nat, findStringIndex_from i items item = i + Z.of_nat n
               ∧ items !! n = Some item ∧ item ∉ take n items).
Proof.
  revert i. induction items as [|x items IH]; intros i; simpl.
  - left. split; [done|]. apply not_elem_of_nil.
  - case_decide as Hx.
    + right. exists 0%nat. subst. split; [lia|]. split; [done|].
      simpl. apply not_elem_of_nil.
    + destruct (IH (i + 1)) as [[-> Hn]|(n & -> & Hn & Ht)].
      * left. split; [done|]. rewrite not_elem_of_cons. by split.
      * right. exists (S n). split; [lia|]. split; [done|].
        simpl. rewrite not_elem_of_cons. by split.
Qed.

Lemma findStringIndex_absent (items : list string) item :
  findStringIndex items item < 0 ↔ item ∉ items.
Proof.
  unfold findStringIndex.
  destruct (findStringIndex_from_spec 0 items item)
    as [[-> Hn]|(n & -> & Hn & _)].
  - split; [done|lia].
  - split; [lia|]. intros Habs. destruct Habs.
    apply list_elem_of_lookup. eauto.
Qed.

Lemma findStringIndex_nil item : findStringIndex [] item = -1.
Proof. done. Qed.

(** ** addSubscription *)

(** What [addSubscription] computes, with the key named once. *)
Lemma addSubscription_unfold key recipient trigger (annotations : gmap string string) :
  addSubscription key recipient trigger annotations
  = let k := AnnotationKey_spec key trigger in
    let existingRecipients := ParseRecipients (valueAt annotations k) in
    if decide (recipient ∈ existingRecipients) then annotations
    else <[k := strings.Join (existingRecipients ++ [recipient]) ","]> annotations.
Proof.
  unfold addSubscription. rewrite copyStringMap_id.
  assert ((if decide (trigger ≠ "") then fmt.Sprintf_s_dot_s trigger key else key)
          = AnnotationKey_spec key trigger) as ->.
  { destruct trigger; [done|]. by rewrite decide_True. }
  simpl. case_decide as Hi; case_decide as Hm; try done.
  - by apply findStringIndex_absent in Hi.
  - destruct Hi. by apply findStringIndex_absent.
Qed.

Lemma addSubscription_twice key recipient trigger (annotations : gmap string string) :
  strings.Contains recipient "," = false →
  addSubscription key recipient trigger
    (addSubscription key recipient trigger annotations)
  = addSubscription key recipient trigger annotations.
Proof.
  intros Hr.
  rewrite (addSubscription_unfold key recipient trigger annotations). simpl.
  set (k := AnnotationKey_spec key trigger).
  set (existing := ParseRecipients (valueAt annotations k)).
  case_decide as Hin.
  - rewrite addSubscription_unfold. simpl. fold k. fold existing. by rewrite decide_True.
  - rewrite addSubscription_unfold. simpl. fold k.
    rewrite valueAt_insert_eq.
    destruct (decide ((existing ++ [recipient])%list = [""])) as [Hnil|Hnil].
    + rewrite Hnil. simpl.
      assert (recipient = "") as ->.
      { destruct existing as [|? [|? ?]]; simplify_eq/=; done. }
      by rewrite insert_insert_eq.
    + rewrite ParseRecipients_Join; [|..|done].
      * rewrite decide_True; [done|]. apply elem_of_app. right. by left.
      * apply Forall_app. split; [apply ParseRecipients_fields|].
        by repeat constructor.
Qed.

Lemma addSubscription_NoDupLists key recipient trigger (annotations : gmap string string) :
  strings.Contains recipient "," = false →
  NoDupLists annotations →
  NoDupLists (addSubscription key recipient trigger annotations).
Proof.
  intros Hr Hinv. rewrite addSubscription_unfold. simpl.
  set (k := AnnotationKey_spec key trigger).
  set (existing := ParseRecipients (valueAt annotations k)).
  case_decide as Hin; [done|].
  assert (NoDup existing) as Hnd.
  { unfold existing, valueAt. destruct (annotations !! k) eqn:Hk; simpl.
    - by eapply Hinv.
    - rewrite ParseRecipients_empty. constructor. }
  intros k' value. destruct (decide (k = k')) as [<-|Hne].
  - rewrite lookup_insert_eq. intros [= <-].
    destruct (decide ((existing ++ [recipient])%list = [""])) as [Hnil|Hnil].
    + rewrite Hnil. simpl. rewrite ParseRecipients_empty. constructor.
    + rewrite ParseRecipients_Join; [|..|done].
      * apply NoDup_app. split; [done|]. split.
        -- intros x Hx Hx'. apply list_elem_of_singleton in Hx'. by subst.
        -- apply NoDup_singleton.
      * apply Forall_app. split; [apply ParseRecipients_fields|].
        by repeat constructor.
  - rewrite lookup_insert_ne by done. apply Hinv.
Qed.

(** ** removeSubscription *)

Lemma removeSubscription_step_other recipient (annotations : gmap string string) k k' :
  k ≠ k' →
  removeSubscription_step recipient annotations k' !! k = annotations !! k.
Proof.
  intros Hne. unfold removeSubscription_step. simpl.
  repeat case_decide; try done.
  - by rewrite lookup_insert_ne.
  - by rewrite lookup_delete_ne.
Qed.

Lemma removeSubscription_step_absent recipient (annotations : gmap string string) k :
  annotations !! k = None →
  removeSubscription_step recipient annotations k = annotations.
Proof.
  intros Hk. unfold removeSubscription_step.
  rewrite (valueAt_lookup_None _ _ Hk), ParseRecipients_empty, findStringIndex_nil.
  done.
Qed.






(** ** Running the methods *)

Lemma updateSubscription_selected key keys marshal recipient subscribe opts
    name client :
  selectClient opts = Some (name, client) →
  updateSubscription key keys marshal recipient subscribe opts
  = Get client name (λ r,
      match r with
      | Fail err => ret ("", Some (foreign err))
      | Ok obj =>
          let patch :=
            annotationsPatch (copyStringMap (GetAnnotations obj))
              (mutated key keys recipient subscribe (Trigger opts) obj) in
          if decide (Z.of_nat (size patch) > 0) then
            match marshal patch with
            | (_, Some err) => ret ("", Some err)
            | (patchData, None) =>
                Patch client name patchData (λ r,
                  match r with
                  | Fail err => ret ("", Some (foreign err))
                  | Ok _ => ret ("subscription updated", None)
                  end)
            end
          else ret ("subscription updated", None)
      end).
Proof. unfold updateSubscription. by intros ->. Qed.

(** Every call of [updateSubscription] goes to the selected client, under
    the selected name, and the first one is the [Get]. *)
Lemma updateSubscription_calls {W} (cl : Client W) w key keys marshal recipient
    subscribe opts name client :
  selectClient opts = Some (name, client) →
  let calls :=
    (exec cl (updateSubscription key keys marshal recipient subscribe opts) w).2 in
  head calls = Some (CGet client name)
  ∧ Forall (λ call, call_collection call = client ∧ call_name call = Some name) calls.
Proof.
  intros Hsel. rewrite (updateSubscription_selected _ _ _ _ _ _ _ _ Hsel). simpl.
  destruct (doGet cl client name w) as [[obj|err] w1]; simpl.
  - case_decide; simpl.
    + destruct (marshal _) as [data [err|]]; simpl.
      * split; by repeat constructor.
      * destruct (doPatch cl client name data w1) as [[?|?] w2]; simpl;
          split; by repeat constructor.
    + split; by repeat constructor.
  - split; by repeat constructor.
Qed.

(** ** The scanning loop of listSubscriptions *)

Section Scan.
Context {Destination : Type} `{Countable Destination}.
Variable GetDestinations : gmap string string → result (gmap Destination bool).

(** The loop stops at the first item whose annotations do not parse, with
    that item's error. *)
Lemma scan_first_failure dest (pre : list Unstructured) item post found msg :
  Forall (λ it, ∃ d, GetDestinations (GetAnnotations it) = Ok d) pre →
  GetDestinations (GetAnnotations item) = Fail msg →
  scan GetDestinations dest (pre ++ item :: post) found = Fail msg.
Proof.
  intros Hpre Hitem. revert found.
  induction Hpre as [|it pre [d Hd] _ IH]; intros found; simpl.
  - by rewrite Hitem.
  - rewrite Hd. destruct (default false (d !! dest)); apply IH.
Qed.

(** The loop ends well only when every item parsed. *)
Lemma scan_Ok dest (items : list Unstructured) found names :
  scan GetDestinations dest items found = Ok names →
  Forall (λ it, ∃ d, GetDestinations (GetAnnotations it) = Ok d) items.
Proof.
  revert found. induction items as [|it items IH]; intros found; simpl.
  - constructor.
  - destruct (GetDestinations (GetAnnotations it)) as [d|] eqn:Hd; [|done].
    intros Hs. constructor; [by eexists|].
    destruct (default false (d !! dest)); by eapply IH.
Qed.

Lemma scan_total dest (items : list Unstructured) found :
  Forall (λ it, ∃ d, GetDestinations (GetAnnotations it) = Ok d) items →
  ∃ names, scan GetDestinations dest items found = Ok names.
Proof.
  intros Hitems. revert found.
  induction Hitems as [|it items [d Hd] _ IH]; intros found; simpl.
  - by eexists.
  - rewrite Hd. destruct (default false (d !! dest)); apply IH.
Qed.
End Scan.

(** ** The scenario of the specification, on the base key *)

Example scenario_add :
  addSubscription "notified.argoproj.io" "slack:ops" "" ∅
  = {[ "notified.argoproj.io" := "slack:ops" ]}.
Proof. apply map_to_list_inj. by vm_compute. Qed.

Example scenario_add_again :
  addSubscription "notified.argoproj.io" "slack:ops" ""
    {[ "notified.argoproj.io" := "slack:ops" ]}
  = {[ "notified.argoproj.io" := "slack:ops" ]}.
Proof. apply map_to_list_inj. by vm_compute. Qed.

Example scenario_remove :
  removeSubscription (keys_of_trigger "notified.argoproj.io") "slack:ops" ""
    {[ "notified.argoproj.io" := "slack:ops" ]}
  = ∅.
Proof. apply map_to_list_inj. by vm_compute. Qed.

Example scenario_trigger_key :
  addSubscription "notified.argoproj.io" "slack:ops" "on-sync"
    {[ "notified.argoproj.io" := "slack:dev" ]}
  = {[ "notified.argoproj.io" := "slack:dev";
       "on-sync.notified.argoproj.io" := "slack:ops" ]}.
Proof. apply map_to_list_inj. by vm_compute. Qed.

Example scenario_list :
  (exec fake.client
     (listSubscriptions sample.ParseDestinationAndTemplate sample.GetDestinations
        "slack:ops") sample.cluster).1.1
  = ("The slack:ops is subscribed to 1 applications and 0 projects.
Applications: argocd/guestbook.", None).
Proof. by vm_compute. Qed.

(** * The claims *)

(** C1 (evaluated where the code departs from it): the patch is meant to
    hold a set-to-new-value entry for every key of [new] that is absent from
    [old]. The first loop of [annotationsPatch] compares the new value with
    [old[k]], which is the empty string for a missing key, so a key that
    [new] adds with the empty string as its value gets no entry: here [new]
    has the key, [old] does not, and the patch is empty. *)
Theorem annotationsPatch_misses_empty_new_value :
  let old : gmap string string := ∅ in
  let new : gmap string string := {[ "notified.argoproj.io" := "" ]} in
  old !! "notified.argoproj.io" = None
  ∧ new !! "notified.argoproj.io" = Some ""
  ∧ annotationsPatch old new = ∅.
Proof.
  simpl. split; [done|]. split; [done|].
  apply map_eq. intros k.
  rewrite annotationsPatch_lookup, !lookup_empty.
  destruct (decide (k = "notified.argoproj.io")) as [->|Hne].
  - by rewrite lookup_singleton_eq.
  - by rewrite lookup_singleton_ne.
Qed.

(** C2, as stated, fails: a recipient that holds a comma is decoded as
    several recipients, none of them equal to it, so the second call
    appends it again. *)
Lemma addSubscription_comma_not_idempotent :
  ¬ (∀ (key recipient trigger : string) (annotations : gmap string string),
       addSubscription key recipient trigger
         (addSubscription key recipient trigger annotations)
       = addSubscription key recipient trigger annotations
       ∧ annotationsPatch
           (addSubscription key recipient trigger annotations)
           (addSubscription key recipient trigger
              (addSubscription key recipient trigger annotations)) = ∅).
Proof.
  intros Hall.
  destruct (Hall "notified.argoproj.io" "a,b" "" ∅) as [Heq _].
  apply (f_equal (λ m : gmap string string, m !! "notified.argoproj.io")) in Heq.
  vm_compute in Heq. discriminate Heq.
Qed.

(** C2 (amended): for a recipient that holds no comma, adding it twice
    under the same trigger gives the same map as adding it once, and the
    patch from the once-added map to the twice-added map is empty. *)
Theorem addSubscription_idempotent (key recipient trigger : string)
    (annotations : gmap string string) :
  strings.Contains recipient "," = false →
  addSubscription key recipient trigger
    (addSubscription key recipient trigger annotations)
  = addSubscription key recipient trigger annotations
  ∧ annotationsPatch
      (addSubscription key recipient trigger annotations)
      (addSubscription key recipient trigger
         (addSubscription key recipient trigger annotations)) = ∅.
Proof.
  intros Hr. rewrite addSubscription_twice by done.
  split; [done|apply annotationsPatch_same].
Qed.

Lemma addSubscription_idempotent_witness :
  addSubscription "notified.argoproj.io" "slack:ops" "on-sync"
    (addSubscription "notified.argoproj.io" "slack:ops" "on-sync" ∅)
  = addSubscription "notified.argoproj.io" "slack:ops" "on-sync" ∅
  ∧ annotationsPatch
      (addSubscription "notified.argoproj.io" "slack:ops" "on-sync" ∅)
      (addSubscription "notified.argoproj.io" "slack:ops" "on-sync"
         (addSubscription "notified.argoproj.io" "slack:ops" "on-sync" ∅)) = ∅.
Proof.
  apply (addSubscription_idempotent "notified.argoproj.io" "slack:ops" "on-sync" ∅).
  reflexivity.
Defined.




(** C4, as stated, fails: one call with a recipient that holds a comma
    stores a value that decodes to a list with a repeated recipient. *)
Lemma addSubscriptions_comma_duplicates :
  ¬ (∀ (key : string) (ops : list (string * string))
       (annotations : gmap string string),
       NoDupLists annotations → NoDupLists (addSubscriptions key ops annotations)).
Proof.
  intros Hall.
  assert (NoDupLists ∅) as Hempty.
  { intros k value. by rewrite lookup_empty. }
  specialize (Hall "notified.argoproj.io" [("a,a", "")] ∅ Hempty
                   "notified.argoproj.io" "a,a").
  assert (NoDup ["a"; "a"]) as Hdup by (apply Hall; vm_compute; reflexivity).
  apply NoDup_cons in Hdup as [Hin _]. apply Hin. by left.
Qed.

(** C4 (amended): starting from a map none of whose decoded lists holds a
    recipient twice, any finite run of [addSubscription] calls whose
    recipients hold no comma ends in such a map. *)
Theorem addSubscriptions_NoDupLists (key : string)
    (ops : list (string * string)) (annotations : gmap string string) :
  Forall (λ op, strings.Contains op.1 "," = false) ops →
  NoDupLists annotations →
  NoDupLists (addSubscriptions key ops annotations).
Proof.
  intros Hops. revert annotations. unfold addSubscriptions.
  induction Hops as [|[recipient trigger] ops Hop _ IH]; intros annotations Hinv.
  - done.
  - simpl. apply IH. by apply addSubscription_NoDupLists.
Qed.

Lemma addSubscriptions_NoDupLists_witness :
  NoDupLists
    (addSubscriptions "notified.argoproj.io"
       [("slack:ops", ""); ("slack:dev", ""); ("slack:ops", "");
        ("slack:ops", "on-sync")] ∅).
Proof.
  apply (addSubscriptions_NoDupLists "notified.argoproj.io"
           [("slack:ops", ""); ("slack:dev", ""); ("slack:ops", "");
            ("slack:ops", "on-sync")] ∅).
  - repeat constructor.
  - intros k value. rewrite lookup_empty. discriminate.
Defined.

(** C5: when both the application name and the project name are empty,
    [updateSubscription] is the program that returns the missing-target
    error at once; run against any client, it makes no call and leaves the
    world as it was. *)
Theorem updateSubscription_missing_target (key : string)
    (GetAnnotationKeys : gmap string string → string → list string)
    (json_Marshal : gmap string (option string) → PatchData * option error)
    (recipient : string) (subscribe : bool) (opts : UpdateSubscription) :
  App opts = "" →
  Project opts = "" →
  updateSubscription key GetAnnotationKeys json_Marshal recipient subscribe opts
  = ret ("", Some (errors_New
           "either application or project name must be specified"))
  ∧ ∀ W (cl : Client W) (w : W),
      exec cl (updateSubscription key GetAnnotationKeys json_Marshal recipient subscribe opts) w
      = ("", Some (errors_New
               "either application or project name must be specified"), w, []).
Proof.
  intros Happ Hproj.
  assert (updateSubscription key GetAnnotationKeys json_Marshal recipient subscribe opts
          = ret ("", Some (errors_New
                   "either application or project name must be specified")))
    as ->.
  { unfold updateSubscription, selectClient. by rewrite Happ, Hproj. }
  done.
Qed.

Lemma updateSubscription_missing_target_witness :
  updateSubscription sample.AnnotationKey (keys_of_trigger sample.AnnotationKey)
      sample.json_Marshal
    "slack:ops" true {| App := ""; Project := ""; Trigger := "on-sync" |}
  = ret ("", Some (errors_New
           "either application or project name must be specified"))
  ∧ ∀ W (cl : Client W) (w : W),
      exec cl
        (updateSubscription sample.AnnotationKey
           (keys_of_trigger sample.AnnotationKey)
           sample.json_Marshal
           "slack:ops" true {| App := ""; Project := ""; Trigger := "on-sync" |}) w
      = ("", Some (errors_New
               "either application or project name must be specified"), w, []).
Proof.
  apply (updateSubscription_missing_target sample.AnnotationKey
           (keys_of_trigger sample.AnnotationKey)
           sample.json_Marshal "slack:ops" true
           {| App := ""; Project := ""; Trigger := "on-sync" |});
    reflexivity.
Defined.

(** C6: when the fetch succeeds and the patch from the fetched annotations
    to the mutated ones is empty, [updateSubscription] returns
    "subscription updated" with no error, the only call made is the [Get],
    so no [Patch] is issued, and the world is the one the [Get] left. *)
Theorem updateSubscription_empty_diff_no_patch {W} (cl : Client W) (w w1 : W)
    (key : string)
    (GetAnnotationKeys : gmap string string → string → list string)
    (json_Marshal : gmap string (option string) → PatchData * option error)
    (recipient : string) (subscribe : bool) (opts : UpdateSubscription)
    (name : string) (client : Collection) (obj : Unstructured) :
  selectClient opts = Some (name, client) →
  doGet cl client name w = (Ok obj, w1) →
  annotationsPatch (copyStringMap (GetAnnotations obj))
    (mutated key GetAnnotationKeys recipient subscribe (Trigger opts) obj) = ∅ →
  exec cl (updateSubscription key GetAnnotationKeys json_Marshal recipient subscribe opts) w
  = ("subscription updated", None, w1, [CGet client name])
  ∧ Forall (λ call, is_patch call = false)
      (exec cl (updateSubscription key GetAnnotationKeys json_Marshal recipient subscribe opts) w).2.
Proof.
  intros Hsel Hget Hdiff.
  assert (exec cl (updateSubscription key GetAnnotationKeys json_Marshal recipient subscribe opts) w
          = ("subscription updated", None, w1, [CGet client name])) as ->.
  { rewrite (updateSubscription_selected _ _ _ _ _ _ _ _ Hsel). simpl.
    rewrite Hget. simpl. rewrite Hdiff. by rewrite map_size_empty. }
  split; [done|]. by repeat constructor.
Qed.

Lemma updateSubscription_empty_diff_no_patch_witness :
  exec fake.client
    (updateSubscription sample.AnnotationKey (keys_of_trigger sample.AnnotationKey)
      sample.json_Marshal
       "slack:ops" true {| App := "guestbook"; Project := ""; Trigger := "" |})
    sample.cluster
  = ("subscription updated", None, sample.cluster, [CGet appClient "guestbook"])
  ∧ Forall (λ call, is_patch call = false)
      (exec fake.client
         (updateSubscription sample.AnnotationKey
            (keys_of_trigger sample.AnnotationKey)
            sample.json_Marshal
            "slack:ops" true {| App := "guestbook"; Project := ""; Trigger := "" |})
         sample.cluster).2.
Proof.
  apply (updateSubscription_empty_diff_no_patch fake.client
           sample.cluster sample.cluster sample.AnnotationKey
           (keys_of_trigger sample.AnnotationKey)
           sample.json_Marshal "slack:ops" true
           {| App := "guestbook"; Project := ""; Trigger := "" |}
           "guestbook" appClient
           (sample.object "argocd" "guestbook"
              {[ sample.AnnotationKey := "slack:ops" ]})).
  - reflexivity.
  - reflexivity.
  - vm_compute. reflexivity.
Defined.

(** C7: [addSubscription] reads and writes exactly one key, the
    AnnotationKey of the specification: the base key for the empty trigger,
    the trigger, a dot and the base key otherwise. *)
Theorem addSubscription_annotation_key (key recipient trigger : string)
    (annotations : gmap string string) :
  addSubscription key recipient trigger annotations
  = (if decide (recipient ∈ ParseRecipients
                  (valueAt annotations (AnnotationKey_spec key trigger)))
     then annotations
     else <[AnnotationKey_spec key trigger :=
              strings.Join
                (ParseRecipients (valueAt annotations (AnnotationKey_spec key trigger))
                 ++ [recipient]) ","]> annotations)
  ∧ AnnotationKey_spec key "" = key
  ∧ ∀ c t, AnnotationKey_spec key (String c t) = String c t +:+ "." +:+ key.
Proof.
  split; [|done]. apply addSubscription_unfold.
Qed.

(** C8: once the recipient has parsed and the applications are listed, the
    first scanned resource whose annotations fail to parse ends
    [listSubscriptions] with that error and the empty text, among the
    applications (before the projects are even listed) as well as among the
    projects; and a run that ends without error has parsed every
    application. *)
Theorem listSubscriptions_parse_failure_aborts
    {Destination : Type} `{Countable Destination}
    (ParseDestinationAndTemplate : string → result (Destination * string))
    (GetDestinations : gmap string string → result (gmap Destination bool))
    {W} (cl : Client W) (w w1 : W) (recipient : string)
    (dest : Destination) (template : string) (appList : list Unstructured) :
  ParseDestinationAndTemplate recipient = Ok (dest, template) →
  doList cl appClient w = (Ok appList, w1) →
  (∀ pre item post msg,
     appList = (pre ++ item :: post)%list →
     Forall (λ it, ∃ d, GetDestinations (GetAnnotations it) = Ok d) pre →
     GetDestinations (GetAnnotations item) = Fail msg →
     exec cl (listSubscriptions ParseDestinationAndTemplate GetDestinations recipient) w
     = ("", Some (foreign msg), w1, [CList appClient]))
  ∧ (∀ w2 appProjList pre item post msg,
       Forall (λ it, ∃ d, GetDestinations (GetAnnotations it) = Ok d) appList →
       doList cl appProjClient w1 = (Ok appProjList, w2) →
       appProjList = (pre ++ item :: post)%list →
       Forall (λ it, ∃ d, GetDestinations (GetAnnotations it) = Ok d) pre →
       GetDestinations (GetAnnotations item) = Fail msg →
       exec cl (listSubscriptions ParseDestinationAndTemplate GetDestinations recipient) w
       = ("", Some (foreign msg), w2, [CList appClient; CList appProjClient]))
  ∧ (∀ text,
       (exec cl (listSubscriptions ParseDestinationAndTemplate GetDestinations
                   recipient) w).1.1 = (text, None) →
       Forall (λ it, ∃ d, GetDestinations (GetAnnotations it) = Ok d) appList
       ∧ ∃ appProjList w2,
           doList cl appProjClient w1 = (Ok appProjList, w2)
           ∧ Forall (λ it, ∃ d, GetDestinations (GetAnnotations it) = Ok d)
               appProjList).
Proof.
  intros Hparse Hlist. unfold listSubscriptions. rewrite Hparse. simpl.
  rewrite Hlist. split; [|split].
  - intros pre item post msg -> Hpre Hitem.
    by rewrite (scan_first_failure _ _ _ _ _ _ _ Hpre Hitem).
  - intros w2 appProjList pre item post msg Happs Hlist2 -> Hpre Hitem.
    destruct (scan_total GetDestinations dest appList [] Happs) as [apps ->].
    simpl. rewrite Hlist2.
    by rewrite (scan_first_failure _ _ _ _ _ _ _ Hpre Hitem).
  - intros text.
    destruct (scan GetDestinations dest appList []) as [apps|] eqn:Happs;
      [|done].
    simpl.
    destruct (doList cl appProjClient w1) as [[appProjList|] w2]; [|done].
    destruct (scan GetDestinations dest appProjList []) as [appProjs|] eqn:Hprojs;
      [|done].
    intros _. split; [by eapply scan_Ok|].
    exists appProjList, w2. split; [done|]. by eapply scan_Ok.
Qed.

Lemma listSubscriptions_parse_failure_aborts_witness :
  exec fake.client
    (listSubscriptions sample.ParseDestinationAndTemplate sample.GetDestinations
       "slack:ops") sample.broken_cluster
  = ("", Some (foreign "invalid recipient nobody"), sample.broken_cluster,
     [CList appClient]).
Proof.
  refine (proj1 (listSubscriptions_parse_failure_aborts
            sample.ParseDestinationAndTemplate sample.GetDestinations
            fake.client sample.broken_cluster sample.broken_cluster
            "slack:ops" "slack:ops" ""
            [sample.object "argocd" "broken" {[ sample.AnnotationKey := "nobody" ]}]
            _ _)
          [] (sample.object "argocd" "broken" {[ sample.AnnotationKey := "nobody" ]})
          [] "invalid recipient nobody" _ _ _).
  - reflexivity.
  - vm_compute. reflexivity.
  - reflexivity.
  - constructor.
  - vm_compute. reflexivity.
Defined.

(** C9: [execute] is the program of one operation, picked by the first of
    ListSubscriptions, Subscribe, Unsubscribe that is set, whatever the
    later fields hold; it is the unknown-command error exactly when none of
    the three is set. *)
Theorem execute_precedence (key : string)
    (GetAnnotationKeys : gmap string string → string → list string)
    (json_Marshal : gmap string (option string) → PatchData * option error)
    {Destination : Type} `{Countable Destination}
    (ParseDestinationAndTemplate : string → result (Destination * string))
    (GetDestinations : gmap string string → result (gmap Destination bool)) :
  (∀ recipient l subscribe unsubscribe,
     execute key GetAnnotationKeys json_Marshal ParseDestinationAndTemplate GetDestinations
       {| Recipient := recipient; ListSubscriptions := Some l;
          Subscribe := subscribe; Unsubscribe := unsubscribe |}
     = listSubscriptions ParseDestinationAndTemplate GetDestinations recipient)
  ∧ (∀ recipient opts unsubscribe,
       execute key GetAnnotationKeys json_Marshal ParseDestinationAndTemplate GetDestinations
         {| Recipient := recipient; ListSubscriptions := None;
            Subscribe := Some opts; Unsubscribe := unsubscribe |}
       = updateSubscription key GetAnnotationKeys json_Marshal recipient true opts)
  ∧ (∀ recipient opts,
       execute key GetAnnotationKeys json_Marshal ParseDestinationAndTemplate GetDestinations
         {| Recipient := recipient; ListSubscriptions := None;
            Subscribe := None; Unsubscribe := Some opts |}
       = updateSubscription key GetAnnotationKeys json_Marshal recipient false opts)
  ∧ (∀ cmd,
       execute key GetAnnotationKeys json_Marshal ParseDestinationAndTemplate GetDestinations cmd
       = ret ("", Some (errors_New "unknown command"))
       ↔ ListSubscriptions cmd = None ∧ Subscribe cmd = None
         ∧ Unsubscribe cmd = None).
Proof.
  split; [done|]. split; [done|]. split; [done|].
  intros [recipient l subscribe unsubscribe]. unfold execute. simpl. split.
  - destruct l as [l|].
    { unfold listSubscriptions.
      destruct (ParseDestinationAndTemplate recipient) as [[dest template]|];
        discriminate. }
    assert (∀ b opts, updateSubscription key GetAnnotationKeys json_Marshal recipient b opts
                      ≠ ret ("", Some (errors_New "unknown command"))) as Hupd.
    { intros b opts. unfold updateSubscription.
      destruct (selectClient opts) as [[name client]|]; discriminate. }
    destruct subscribe as [opts|]; [by intros ?%Hupd|].
    destruct unsubscribe as [opts|]; [by intros ?%Hupd|].
    done.
  - by intros (-> & -> & ->).
Qed.

(** C10: when both names are given, [updateSubscription] selects the
    application client with the application name; it is the very program
    of the request without the project name, so no error comes from the
    ambiguity, and every call it makes, the first being the [Get], goes to
    the application client under the application name. *)
Theorem updateSubscription_app_precedence (key : string)
    (GetAnnotationKeys : gmap string string → string → list string)
    (json_Marshal : gmap string (option string) → PatchData * option error)
    (recipient : string) (subscribe : bool) (opts : UpdateSubscription) :
  App opts ≠ "" →
  Project opts ≠ "" →
  selectClient opts = Some (App opts, appClient)
  ∧ updateSubscription key GetAnnotationKeys json_Marshal recipient subscribe opts
    = updateSubscription key GetAnnotationKeys json_Marshal recipient subscribe
        {| App := App opts; Project := ""; Trigger := Trigger opts |}
  ∧ ∀ W (cl : Client W) (w : W),
      head (exec cl (updateSubscription key GetAnnotationKeys json_Marshal recipient
                       subscribe opts) w).2
      = Some (CGet appClient (App opts))
      ∧ Forall (λ call, call_collection call = appClient
                        ∧ call_name call = Some (App opts))
          (exec cl (updateSubscription key GetAnnotationKeys json_Marshal recipient
                      subscribe opts) w).2.
Proof.
  intros Happ Hproj.
  assert (selectClient opts = Some (App opts, appClient)) as Hsel.
  { unfold selectClient. by rewrite decide_True. }
  split; [done|]. split.
  - rewrite (updateSubscription_selected _ _ _ _ _ _ _ _ Hsel).
    rewrite (updateSubscription_selected key GetAnnotationKeys json_Marshal recipient subscribe
               {| App := App opts; Project := ""; Trigger := Trigger opts |}
               (App opts) appClient); [done|].
    unfold selectClient. simpl. by rewrite decide_True.
  - intros W cl w. by apply updateSubscription_calls.
Qed.

Lemma updateSubscription_app_precedence_witness :
  (exec fake.client
     (updateSubscription sample.AnnotationKey (keys_of_trigger sample.AnnotationKey)
      sample.json_Marshal
        "slack:dev" true
        {| App := "guestbook"; Project := "default"; Trigger := "" |})
     sample.cluster).2
  = [CGet appClient "guestbook";
     CPatch appClient "guestbook"
       (MetadataAnnotations
          {[ sample.AnnotationKey := Some "slack:ops,slack:dev" ]})]
  ∧ head (exec fake.client
            (updateSubscription sample.AnnotationKey
               (keys_of_trigger sample.AnnotationKey)
               sample.json_Marshal "slack:dev" true
               {| App := "guestbook"; Project := "default"; Trigger := "" |})
            sample.cluster).2
    = Some (CGet appClient "guestbook").
Proof.
  split.
  - vm_compute. reflexivity.
  - apply (updateSubscription_app_precedence sample.AnnotationKey
             (keys_of_trigger sample.AnnotationKey)
             sample.json_Marshal "slack:dev" true
             {| App := "guestbook"; Project := "default"; Trigger := "" |});
      discriminate.
Defined.

(** * Further properties of server.go *)

(** ** Shared lemmas *)

Lemma merge_lookup (patch : gmap string (option string))
    (annotations : gmap string string) k :
  fake.merge patch annotations !! k
  = match patch !! k with
    | Some (Some s) => Some s
    | Some None => None
    | None => annotations !! k
    end.
Proof.
  unfold fake.merge. revert k.
  apply (map_fold_weak_ind (λ (acc : gmap string string) patch, ∀ k,
    acc !! k = match patch !! k with
               | Some (Some s) => Some s
               | Some None => None
               | None => annotations !! k
               end)).
  - intros k. by rewrite lookup_empty.
  - intros i x m acc Hi IH k. destruct (decide (i = k)) as [->|Hne].
    + rewrite lookup_insert_eq. destruct x.
      * by rewrite lookup_insert_eq.
      * by rewrite lookup_delete_eq.
    + rewrite (lookup_insert_ne m) by done. destruct x.
      * rewrite lookup_insert_ne by done. apply IH.
      * rewrite lookup_delete_ne by done. apply IH.
Qed.

(** The merge patch carries [old] to [new], unless [new] adds a key with an
    empty value. *)
Lemma merge_annotationsPatch (old new : gmap string string) :
  (∀ k, new !! k = Some "" → is_Some (old !! k)) →
  fake.merge (annotationsPatch old new) old = new.
Proof.
  intros Hnew. apply map_eq. intros k.
  rewrite merge_lookup, annotationsPatch_lookup.
  destruct (new !! k) as [v|] eqn:Hk.
  - case_decide as Hv; [done|].
    unfold valueAt in Hv.
    destruct (old !! k) as [x|] eqn:Ho; simpl in Hv; [by subst|].
    subst v. destruct (Hnew k Hk) as [? ?]. congruence.
  - by destruct (old !! k).
Qed.

Lemma merge_empty (annotations : gmap string string) :
  fake.merge ∅ annotations = annotations.
Proof. unfold fake.merge. apply map_fold_empty. Qed.

Lemma last_not_singleton_empty (l : list string) (x : string) :
  (l ++ [x])%list = [""] → l = [] ∧ x = "".
Proof. destruct l as [|? [|? ?]]; intros; simplify_eq/=; done. Qed.

(** ** copyStringMap, findStringIndex, annotationsPatch *)

(** X1: the copy made by [copyStringMap] is a map with exactly the entries
    of its argument. *)
Theorem copyStringMap_equal (m : gmap string string) :
  copyStringMap m = m ∧ ∀ k, copyStringMap m !! k = m !! k.
Proof. rewrite copyStringMap_id. done. Qed.

(** X2: [findStringIndex] returns -1 when the item does not occur, and
    otherwise the position of its first occurrence, which is within the
    bounds of the list. *)
Theorem findStringIndex_first_occurrence (items : list string) (item : string) :
  (findStringIndex items item = -1 ∧ item ∉ items)
  ∨ (∃ n : nat, findStringIndex items item = Z.of_nat n
                ∧ (n < length items)%nat
                ∧ items !! n = Some item
                ∧ item ∉ take n items).
Proof.
  unfold findStringIndex.
  destruct (findStringIndex_from_spec 0 items item)
    as [?|(n & Hn & Hl & Ht)]; [by left|right].
  exists n. split; [by rewrite Hn|]. split; [|done].
  by eapply lookup_lt_Some.
Qed.

(** X3: key by key, the patch holds a value exactly for the keys of [new]
    whose value differs from [old[k]] (the empty string when [old] lacks
    the key), and a nil exactly for the keys of [old] that [new] lacks. *)
Theorem annotationsPatch_entries (old new : gmap string string) (k : string) :
  (∀ v, annotationsPatch old new !! k = Some (Some v)
        ↔ new !! k = Some v ∧ v ≠ valueAt old k)
  ∧ (annotationsPatch old new !! k = Some None
     ↔ new !! k = None ∧ is_Some (old !! k)).
Proof.
  rewrite annotationsPatch_lookup. split.
  - intros v. destruct (new !! k) as [v'|].
    + case_decide; split.
      * by intros [= ->].
      * by intros [[= ->] _].
      * done.
      * intros [[= ->] ?]. done.
    + destruct (old !! k); split; try done; by intros [? _].
  - destruct (new !! k) as [v'|].
    + case_decide; split; try done; by intros [? _].
    + destruct (old !! k) eqn:Ho; split; try done.
      * intros [_ [? ?]]. done.
Qed.

(** X4: applying the patch to [old] as a JSON merge patch (a value sets the
    key, a nil removes it) gives [new], provided every key that [new] holds
    with the empty string is already a key of [old]. *)
Theorem annotationsPatch_applies (old new : gmap string string) :
  (∀ k, new !! k = Some "" → is_Some (old !! k)) →
  fake.merge (annotationsPatch old new) old = new.
Proof. apply merge_annotationsPatch. Qed.

Lemma annotationsPatch_applies_witness :
  fake.merge
    (annotationsPatch
       {[ "a" := "slack:ops"; "b" := "slack:dev"; "c" := "" ]}
       {[ "a" := "slack:ops,slack:dev"; "c" := ""; "d" := "email:x" ]})
    {[ "a" := "slack:ops"; "b" := "slack:dev"; "c" := "" ]}
  = {[ "a" := "slack:ops,slack:dev"; "c" := ""; "d" := "email:x" ]}.
Proof.
  apply (annotationsPatch_applies
           {[ "a" := "slack:ops"; "b" := "slack:dev"; "c" := "" ]}
           {[ "a" := "slack:ops,slack:dev"; "c" := ""; "d" := "email:x" ]}).
  intros k Hk.
  destruct (decide (k = "c")) as [->|Hne]; [by eexists|].
  exfalso. revert Hk.
  destruct (decide (k = "a")) as [->|Ha]; [by vm_compute|].
  destruct (decide (k = "d")) as [->|Hd]; [by vm_compute|].
  rewrite !lookup_insert_ne by done. by rewrite lookup_singleton_ne.
Defined.

(** X5: under the same proviso, the patch is empty exactly when the two
    maps are equal: an empty patch means there is nothing to write. *)
Theorem annotationsPatch_empty_iff (old new : gmap string string) :
  (∀ k, new !! k = Some "" → is_Some (old !! k)) →
  annotationsPatch old new = ∅ ↔ old = new.
Proof.
  intros Hnew. split.
  - intros Hp. rewrite <- (merge_annotationsPatch old new Hnew), Hp.
    by rewrite merge_empty.
  - intros ->. apply annotationsPatch_same.
Qed.

Lemma annotationsPatch_empty_iff_witness :
  annotationsPatch {[ "a" := "slack:ops" ]} {[ "a" := "slack:ops" ]} = ∅
  ↔ ({[ "a" := "slack:ops" ]} : gmap string string) = {[ "a" := "slack:ops" ]}.
Proof.
  apply (annotationsPatch_empty_iff {[ "a" := "slack:ops" ]} {[ "a" := "slack:ops" ]}).
  intros k Hk. destruct (decide (k = "a")) as [->|Hne].
  - by eexists.
  - rewrite lookup_singleton_ne in Hk by done. discriminate Hk.
Defined.

(** ** addSubscription *)

Lemma addSubscription_lookup_other key recipient trigger
    (annotations : gmap string string) k :
  k ≠ AnnotationKey_spec key trigger →
  addSubscription key recipient trigger annotations !! k = annotations !! k.
Proof.
  intros Hk. rewrite addSubscription_unfold. simpl.
  case_decide; [done|]. by rewrite lookup_insert_ne.
Qed.

(** X6: [addSubscription] touches one key only: every key other than the
    one derived from the trigger has the entry it had, or still none. *)
Theorem addSubscription_other_keys (key recipient trigger : string)
    (annotations : gmap string string) (k : string) :
  k ≠ (if decide (trigger = "") then key else trigger +:+ "." +:+ key) →
  addSubscription key recipient trigger annotations !! k = annotations !! k.
Proof.
  intros Hk. apply addSubscription_lookup_other.
  by destruct trigger.
Qed.

Lemma addSubscription_other_keys_witness :
  addSubscription "notified.argoproj.io" "slack:ops" "on-sync"
    {[ "notified.argoproj.io" := "slack:dev" ]} !! "notified.argoproj.io"
  = ({[ "notified.argoproj.io" := "slack:dev" ]} : gmap string string)
      !! "notified.argoproj.io".
Proof.
  apply (addSubscription_other_keys "notified.argoproj.io" "slack:ops" "on-sync"
           {[ "notified.argoproj.io" := "slack:dev" ]} "notified.argoproj.io").
  vm_compute. discriminate.
Defined.

(** X7: after [addSubscription] the key derived from the trigger is always
    present, and no key of the input is lost. *)
Theorem addSubscription_keeps_keys (key recipient trigger : string)
    (annotations : gmap string string) :
  is_Some (addSubscription key recipient trigger annotations
             !! AnnotationKey_spec key trigger)
  ∧ dom annotations ⊆ dom (addSubscription key recipient trigger annotations).
Proof.
  rewrite addSubscription_unfold. simpl.
  set (k := AnnotationKey_spec key trigger).
  case_decide as Hin.
  - split; [|done]. unfold valueAt in Hin.
    destruct (annotations !! k); [by eexists|].
    simpl in Hin. rewrite ParseRecipients_empty in Hin.
    by apply not_elem_of_nil in Hin.
  - split; [rewrite lookup_insert_eq; by eexists|].
    rewrite dom_insert. set_solver.
Qed.

(** X8: a recipient that is not empty and holds no comma is, after
    [addSubscription], among the recipients decoded from the key of the
    trigger. *)
Theorem addSubscription_subscribes (key recipient trigger : string)
    (annotations : gmap string string) :
  strings.Contains recipient "," = false →
  recipient ≠ "" →
  recipient ∈ ParseRecipients
    (valueAt (addSubscription key recipient trigger annotations)
             (AnnotationKey_spec key trigger)).
Proof.
  intros Hc Hne. rewrite addSubscription_unfold. simpl.
  set (k := AnnotationKey_spec key trigger).
  set (existing := ParseRecipients (valueAt annotations k)).
  case_decide as Hin; [done|].
  rewrite valueAt_insert_eq, ParseRecipients_Join.
  - apply elem_of_app. right. by left.
  - apply Forall_app. split; [apply ParseRecipients_fields|].
    by repeat constructor.
  - intros [_ ?]%last_not_singleton_empty. done.
Qed.

Lemma addSubscription_subscribes_witness :
  "slack:ops" ∈ ParseRecipients
    (valueAt (addSubscription "notified.argoproj.io" "slack:ops" "on-sync"
                {[ "on-sync.notified.argoproj.io" := "slack:dev" ]})
             (AnnotationKey_spec "notified.argoproj.io" "on-sync")).
Proof.
  apply (addSubscription_subscribes "notified.argoproj.io" "slack:ops" "on-sync"
           {[ "on-sync.notified.argoproj.io" := "slack:dev" ]}).
  - reflexivity.
  - discriminate.
Defined.

(** X9: [addSubscription] of a recipient without a comma drops nobody: a
    recipient decoded from any key before the call is decoded from that key
    after it. *)
Theorem addSubscription_keeps_recipients (key recipient trigger : string)
    (annotations : gmap string string) (k x : string) :
  strings.Contains recipient "," = false →
  x ∈ ParseRecipients (valueAt annotations k) →
  x ∈ ParseRecipients
        (valueAt (addSubscription key recipient trigger annotations) k).
Proof.
  intros Hc Hx.
  destruct (decide (k = AnnotationKey_spec key trigger)) as [->|Hk].
  - rewrite addSubscription_unfold. simpl.
    set (k := AnnotationKey_spec key trigger) in *.
    set (existing := ParseRecipients (valueAt annotations k)) in *.
    case_decide as Hin; [done|].
    rewrite valueAt_insert_eq, ParseRecipients_Join.
    + apply elem_of_app. by left.
    + apply Forall_app. split; [apply ParseRecipients_fields|].
      by repeat constructor.
    + intros [Hnil _]%last_not_singleton_empty. rewrite Hnil in Hx.
      by apply not_elem_of_nil in Hx.
  - unfold valueAt. by rewrite addSubscription_lookup_other.
Qed.

Lemma addSubscription_keeps_recipients_witness :
  "slack:dev" ∈ ParseRecipients
    (valueAt (addSubscription "notified.argoproj.io" "slack:ops" ""
                {[ "notified.argoproj.io" := "slack:dev" ]})
             "notified.argoproj.io").
Proof.
  apply (addSubscription_keeps_recipients "notified.argoproj.io" "slack:ops" ""
           {[ "notified.argoproj.io" := "slack:dev" ]}
           "notified.argoproj.io" "slack:dev").
  - reflexivity.
  - vm_compute. apply list_elem_of_In. simpl. tauto.
Defined.

(** ** removeSubscription *)

Lemma removeSubscription_step_not_found recipient (annotations : gmap string string) k :
  recipient ∉ ParseRecipients (valueAt annotations k) →
  removeSubscription_step recipient annotations k = annotations.
Proof.
  intros Hr%findStringIndex_absent. unfold removeSubscription_step. simpl.
  rewrite decide_False; [done|lia].
Qed.

(** What a turn of the loop does when the recipient is found: the list
    without the first occurrence is stored, or the key is deleted. *)
Lemma removeSubscription_step_found recipient (annotations : gmap string string) k n :
  ParseRecipients (valueAt annotations k) !! n = Some recipient →
  recipient ∉ take n (ParseRecipients (valueAt annotations k)) →
  let rest := (take n (ParseRecipients (valueAt annotations k))
               ++ drop (S n) (ParseRecipients (valueAt annotations k)))%list in
  removeSubscription_step recipient annotations k
  = if decide (rest = []) then delete k annotations
    else <[k := strings.Join rest ","]> annotations.
Proof.
  intros Hn Ht rest. unfold removeSubscription_step. simpl.
  set (existing := ParseRecipients (valueAt annotations k)) in *.
  assert (findStringIndex existing recipient = Z.of_nat n) as ->.
  { unfold findStringIndex.
    destruct (findStringIndex_from_spec 0 existing recipient)
      as [[_ Hnot]|(m & -> & Hm & Hm')].
    - destruct Hnot. apply list_elem_of_lookup. eauto.
    - f_equal. destruct (Nat.lt_trichotomy m n) as [Hlt|[->|Hgt]]; [|done|].
      + destruct Ht. apply list_elem_of_lookup. exists m.
        by rewrite lookup_take_lt.
      + destruct Hm'. apply list_elem_of_lookup. exists n.
        by rewrite lookup_take_lt. }
  rewrite decide_True by lia.
  unfold remove_at. rewrite Nat2Z.id.
  replace (Z.to_nat (Z.of_nat n + 1)) with (S n) by lia.
  fold rest. by destruct rest.
Qed.

Lemma removeSubscription_loop_other recipient k (keys : list string)
    (annotations : gmap string string) :
  k ∉ keys →
  foldl (removeSubscription_step recipient) annotations keys !! k
  = annotations !! k.
Proof.
  revert annotations. induction keys as [|k' keys IH]; intros annotations Hk.
  - done.
  - apply not_elem_of_cons in Hk as [Hne Hk]. simpl.
    rewrite IH by done. by apply removeSubscription_step_other.
Qed.

(** X10: [removeSubscription] leaves alone every key that
    [GetAnnotationKeys] does not select. *)
Theorem removeSubscription_other_keys
    (GetAnnotationKeys : gmap string string → string → list string)
    (recipient trigger : string) (annotations : gmap string string) (k : string) :
  k ∉ GetAnnotationKeys annotations trigger →
  removeSubscription GetAnnotationKeys recipient trigger annotations !! k
  = annotations !! k.
Proof.
  intros Hk. unfold removeSubscription. rewrite copyStringMap_id. simpl.
  by apply removeSubscription_loop_other.
Qed.

Lemma removeSubscription_other_keys_witness :
  removeSubscription (keys_of_trigger "notified.argoproj.io") "slack:ops" "on-sync"
    {[ "notified.argoproj.io" := "slack:ops";
       "on-sync.notified.argoproj.io" := "slack:ops" ]} !! "notified.argoproj.io"
  = ({[ "notified.argoproj.io" := "slack:ops";
        "on-sync.notified.argoproj.io" := "slack:ops" ]} : gmap string string)
      !! "notified.argoproj.io".
Proof.
  apply (removeSubscription_other_keys (keys_of_trigger "notified.argoproj.io")
           "slack:ops" "on-sync"
           {[ "notified.argoproj.io" := "slack:ops";
              "on-sync.notified.argoproj.io" := "slack:ops" ]}
           "notified.argoproj.io").
  vm_compute. intros Hin. apply list_elem_of_In in Hin. simpl in Hin.
  destruct Hin as [Hin|[]]. discriminate Hin.
Defined.

(** X11: when the recipient is in none of the lists decoded from the
    selected keys, [removeSubscription] returns the map unchanged and the
    patch from the input to the result is empty. *)
Theorem removeSubscription_not_subscribed
    (GetAnnotationKeys : gmap string string → string → list string)
    (recipient trigger : string) (annotations : gmap string string) :
  Forall (λ k, recipient ∉ ParseRecipients (valueAt annotations k))
         (GetAnnotationKeys annotations trigger) →
  removeSubscription GetAnnotationKeys recipient trigger annotations = annotations
  ∧ annotationsPatch annotations
      (removeSubscription GetAnnotationKeys recipient trigger annotations) = ∅.
Proof.
  intros Hkeys.
  assert (removeSubscription GetAnnotationKeys recipient trigger annotations
          = annotations) as ->.
  { unfold removeSubscription. rewrite copyStringMap_id. simpl.
    induction Hkeys as [|k keys Hk _ IH]; [done|].
    simpl. by rewrite removeSubscription_step_not_found. }
  split; [done|apply annotationsPatch_same].
Qed.

Lemma removeSubscription_not_subscribed_witness :
  removeSubscription (keys_of_trigger "notified.argoproj.io") "slack:ops" ""
    {[ "notified.argoproj.io" := "slack:dev,email:x" ]}
  = {[ "notified.argoproj.io" := "slack:dev,email:x" ]}
  ∧ annotationsPatch {[ "notified.argoproj.io" := "slack:dev,email:x" ]}
      (removeSubscription (keys_of_trigger "notified.argoproj.io") "slack:ops" ""
         {[ "notified.argoproj.io" := "slack:dev,email:x" ]}) = ∅.
Proof.
  apply (removeSubscription_not_subscribed (keys_of_trigger "notified.argoproj.io")
           "slack:ops" "" {[ "notified.argoproj.io" := "slack:dev,email:x" ]}).
  vm_compute. constructor; [|constructor].
  intros Hin. apply list_elem_of_In in Hin. simpl in Hin.
  destruct Hin as [Hin|[Hin|[]]]; discriminate Hin.
Defined.

(** X12: [removeSubscription] never creates a key: a key missing from the
    input is missing from the result. *)
Theorem removeSubscription_no_new_keys
    (GetAnnotationKeys : gmap string string → string → list string)
    (recipient trigger : string) (annotations : gmap string string) (k : string) :
  annotations !! k = None →
  removeSubscription GetAnnotationKeys recipient trigger annotations !! k = None.
Proof.
  intros Hk. unfold removeSubscription. rewrite copyStringMap_id. simpl.
  generalize (GetAnnotationKeys annotations trigger). intros keys.
  revert annotations Hk.
  induction keys as [|k' keys IH]; intros annotations Hk; [done|].
  simpl. apply IH. destruct (decide (k = k')) as [<-|Hne].
  - by rewrite removeSubscription_step_absent.
  - by rewrite removeSubscription_step_other.
Qed.

Lemma removeSubscription_no_new_keys_witness :
  removeSubscription (keys_of_trigger "notified.argoproj.io") "slack:ops" ""
    {[ "notified.argoproj.io" := "slack:ops,slack:dev" ]}
    !! "on-sync.notified.argoproj.io" = None.
Proof.
  apply (removeSubscription_no_new_keys (keys_of_trigger "notified.argoproj.io")
           "slack:ops" "" {[ "notified.argoproj.io" := "slack:ops,slack:dev" ]}
           "on-sync.notified.argoproj.io").
  reflexivity.
Defined.

Lemma valueAt_removeSubscription_step_other recipient
    (annotations : gmap string string) k k' :
  k ≠ k' →
  valueAt (removeSubscription_step recipient annotations k') k
  = valueAt annotations k.
Proof. intros. unfold valueAt. by rewrite removeSubscription_step_other. Qed.

Lemma rest_fields (value : string) n :
  Forall (λ r, strings.Contains r "," = false)
    (take n (ParseRecipients value) ++ drop (S n) (ParseRecipients value)).
Proof.
  apply Forall_app. split.
  - apply Forall_take, ParseRecipients_fields.
  - apply Forall_drop, ParseRecipients_fields.
Qed.

(** A turn of the loop on a list without repetition leaves a list without
    the recipient. *)
Lemma removeSubscription_step_clears recipient (annotations : gmap string string) k :
  NoDup (ParseRecipients (valueAt annotations k)) →
  recipient ∉ ParseRecipients
    (valueAt (removeSubscription_step recipient annotations k) k).
Proof.
  intros Hnd.
  destruct (findStringIndex_from_spec 0
              (ParseRecipients (valueAt annotations k)) recipient)
    as [[_ Hnot]|(n & _ & Hn & Ht)].
  - by rewrite removeSubscription_step_not_found.
  - rewrite (removeSubscription_step_found _ _ _ _ Hn Ht). simpl.
    pose proof (rest_fields (valueAt annotations k) n) as Hfields.
    assert (recipient ∉ (take n (ParseRecipients (valueAt annotations k))
                         ++ drop (S n) (ParseRecipients (valueAt annotations k)))%list)
      as Hrest.
    { rewrite <- (take_drop_middle _ _ _ Hn) in Hnd.
      apply NoDup_app in Hnd as (_ & _ & Hnd).
      apply NoDup_cons in Hnd as [Hnd _].
      rewrite not_elem_of_app. by split. }
    revert Hfields Hrest.
    generalize (take n (ParseRecipients (valueAt annotations k))
                ++ drop (S n) (ParseRecipients (valueAt annotations k)))%list.
    intros rest Hfields Hrest. case_decide.
    + rewrite valueAt_delete_eq, ParseRecipients_empty. apply not_elem_of_nil.
    + rewrite valueAt_insert_eq.
      destruct (decide (rest = [""])) as [->|Hne].
      * simpl. rewrite ParseRecipients_empty. apply not_elem_of_nil.
      * by rewrite ParseRecipients_Join.
Qed.

Lemma removeSubscription_step_stays_clear recipient
    (annotations : gmap string string) k k' :
  recipient ∉ ParseRecipients (valueAt annotations k) →
  recipient ∉ ParseRecipients
    (valueAt (removeSubscription_step recipient annotations k') k).
Proof.
  intros Hr. destruct (decide (k = k')) as [<-|Hne].
  - by rewrite removeSubscription_step_not_found.
  - by rewrite valueAt_removeSubscription_step_other.
Qed.

Lemma removeSubscription_loop_clears recipient k (keys : list string)
    (annotations : gmap string string) :
  recipient ∉ ParseRecipients (valueAt annotations k)
  ∨ (NoDup (ParseRecipients (valueAt annotations k)) ∧ k ∈ keys) →
  recipient ∉ ParseRecipients
    (valueAt (foldl (removeSubscription_step recipient) annotations keys) k).
Proof.
  revert annotations.
  induction keys as [|k' keys IH]; intros annotations Hk; simpl.
  - destruct Hk as [Hk|[_ Hk]]; [done|]. by apply not_elem_of_nil in Hk.
  - apply IH. destruct Hk as [Hk|[Hnd Hk]].
    + left. by apply removeSubscription_step_stays_clear.
    + destruct (decide (k = k')) as [<-|Hne].
      * left. by apply removeSubscription_step_clears.
      * right. rewrite valueAt_removeSubscription_step_other by done.
        split; [done|]. apply elem_of_cons in Hk as [?|?]; done.
Qed.

(** X13: after [removeSubscription] the recipient is no longer among the
    recipients decoded from a selected key, when the list decoded from that
    key held no recipient twice. *)
Theorem removeSubscription_unsubscribes
    (GetAnnotationKeys : gmap string string → string → list string)
    (recipient trigger : string) (annotations : gmap string string) (k : string) :
  k ∈ GetAnnotationKeys annotations trigger →
  NoDup (ParseRecipients (valueAt annotations k)) →
  recipient ∉ ParseRecipients
    (valueAt (removeSubscription GetAnnotationKeys recipient trigger annotations) k).
Proof.
  intros Hk Hnd. unfold removeSubscription. rewrite copyStringMap_id. simpl.
  apply removeSubscription_loop_clears. by right.
Qed.

Lemma removeSubscription_unsubscribes_witness :
  "slack:ops" ∉ ParseRecipients
    (valueAt (removeSubscription (keys_of_trigger "notified.argoproj.io")
                "slack:ops" ""
                {[ "notified.argoproj.io" := "slack:dev,slack:ops,email:x" ]})
             "notified.argoproj.io").
Proof.
  apply (removeSubscription_unsubscribes (keys_of_trigger "notified.argoproj.io")
           "slack:ops" ""
           {[ "notified.argoproj.io" := "slack:dev,slack:ops,email:x" ]}
           "notified.argoproj.io").
  - vm_compute. apply list_elem_of_In. simpl. tauto.
  - vm_compute. repeat constructor; intros Hin; apply list_elem_of_In in Hin;
      simpl in Hin; intuition discriminate.
Defined.

Lemma removeSubscription_step_keeps recipient (annotations : gmap string string)
    k k' x :
  x ≠ recipient → x ≠ "" →
  x ∈ ParseRecipients (valueAt annotations k) →
  x ∈ ParseRecipients
        (valueAt (removeSubscription_step recipient annotations k') k).
Proof.
  intros Hxr Hx Hin. destruct (decide (k = k')) as [<-|Hne];
    [|by rewrite valueAt_removeSubscription_step_other].
  destruct (findStringIndex_from_spec 0
              (ParseRecipients (valueAt annotations k)) recipient)
    as [[_ Hnot]|(n & _ & Hn & Ht)].
  - by rewrite removeSubscription_step_not_found.
  - rewrite (removeSubscription_step_found _ _ _ _ Hn Ht). simpl.
    pose proof (rest_fields (valueAt annotations k) n) as Hfields.
    assert (x ∈ (take n (ParseRecipients (valueAt annotations k))
                 ++ drop (S n) (ParseRecipients (valueAt annotations k)))%list)
      as Hrest.
    { rewrite <- (take_drop_middle _ _ _ Hn) in Hin.
      apply elem_of_app in Hin as [Hin|Hin]; apply elem_of_app; [by left|].
      apply elem_of_cons in Hin as [?|?]; [done|by right]. }
    revert Hfields Hrest.
    generalize (take n (ParseRecipients (valueAt annotations k))
                ++ drop (S n) (ParseRecipients (valueAt annotations k)))%list.
    intros rest Hfields Hrest. case_decide as Hnil.
    + rewrite Hnil in Hrest. by apply not_elem_of_nil in Hrest.
    + rewrite valueAt_insert_eq, ParseRecipients_Join; [done|done|].
      intros ->. apply list_elem_of_singleton in Hrest. done.
Qed.

(** X14: [removeSubscription] drops nobody else: a non-empty recipient other
    than the removed one that is decoded from a key before the call is
    decoded from that key after it. *)
Theorem removeSubscription_keeps_others
    (GetAnnotationKeys : gmap string string → string → list string)
    (recipient trigger : string) (annotations : gmap string string)
    (k x : string) :
  x ≠ recipient →
  x ≠ "" →
  x ∈ ParseRecipients (valueAt annotations k) →
  x ∈ ParseRecipients
        (valueAt (removeSubscription GetAnnotationKeys recipient trigger annotations) k).
Proof.
  intros Hxr Hx Hin. unfold removeSubscription. rewrite copyStringMap_id. simpl.
  generalize (GetAnnotationKeys annotations trigger). intros keys.
  revert annotations Hin.
  induction keys as [|k' keys IH]; intros annotations Hin; [done|].
  simpl. apply IH. by apply removeSubscription_step_keeps.
Qed.

Lemma removeSubscription_keeps_others_witness :
  "slack:dev" ∈ ParseRecipients
    (valueAt (removeSubscription (keys_of_trigger "notified.argoproj.io")
                "slack:ops" ""
                {[ "notified.argoproj.io" := "slack:dev,slack:ops" ]})
             "notified.argoproj.io").
Proof.
  apply (removeSubscription_keeps_others (keys_of_trigger "notified.argoproj.io")
           "slack:ops" "" {[ "notified.argoproj.io" := "slack:dev,slack:ops" ]}
           "notified.argoproj.io" "slack:dev").
  - discriminate.
  - discriminate.
  - vm_compute. apply list_elem_of_In. simpl. tauto.
Defined.

(** ** updateSubscription against a client *)

(** X15: when the [Get] fails, [updateSubscription] returns that error with
    the empty text and makes no further call; nothing is patched. *)
Theorem updateSubscription_get_fails {W} (cl : Client W) (w w1 : W)
    (key : string)
    (GetAnnotationKeys : gmap string string → string → list string)
    (json_Marshal : gmap string (option string) → PatchData * option error)
    (recipient : string) (subscribe : bool) (opts : UpdateSubscription)
    (name : string) (client : Collection) (msg : string) :
  selectClient opts = Some (name, client) →
  doGet cl client name w = (Fail msg, w1) →
  exec cl (updateSubscription key GetAnnotationKeys json_Marshal recipient subscribe opts) w
  = ("", Some (foreign msg), w1, [CGet client name]).
Proof.
  intros Hsel Hget.
  rewrite (updateSubscription_selected _ _ _ _ _ _ _ _ Hsel). simpl.
  by rewrite Hget.
Qed.

Lemma updateSubscription_get_fails_witness :
  exec fake.client
    (updateSubscription sample.AnnotationKey (keys_of_trigger sample.AnnotationKey)
      sample.json_Marshal
       "slack:ops" true {| App := "missing"; Project := ""; Trigger := "" |})
    sample.cluster
  = ("", Some (foreign "not found"), sample.cluster, [CGet appClient "missing"]).
Proof.
  apply (updateSubscription_get_fails fake.client sample.cluster sample.cluster
           sample.AnnotationKey (keys_of_trigger sample.AnnotationKey)
      sample.json_Marshal
           "slack:ops" true {| App := "missing"; Project := ""; Trigger := "" |}
           "missing" appClient "not found").
  - reflexivity.
  - reflexivity.
Defined.

(** X16: when the [Get] succeeds, the patch is not empty and [json.Marshal]
    returns a body, [updateSubscription] makes exactly two calls, the [Get]
    and one [Patch] of the same name on the same client carrying that body;
    it returns "subscription updated" if the [Patch] succeeds and the error
    of the [Patch] with the empty text otherwise. Nothing is assumed of
    what the body holds. *)
Theorem updateSubscription_patches {W} (cl : Client W) (w w1 w2 : W)
    (key : string)
    (GetAnnotationKeys : gmap string string → string → list string)
    (json_Marshal : gmap string (option string) → PatchData * option error)
    (recipient : string) (subscribe : bool) (opts : UpdateSubscription)
    (name : string) (client : Collection) (obj : Unstructured)
    (patchData : PatchData) (r : result Unstructured) :
  selectClient opts = Some (name, client) →
  doGet cl client name w = (Ok obj, w1) →
  annotationsPatch (copyStringMap (GetAnnotations obj))
    (mutated key GetAnnotationKeys recipient subscribe (Trigger opts) obj) ≠ ∅ →
  json_Marshal
    (annotationsPatch (copyStringMap (GetAnnotations obj))
       (mutated key GetAnnotationKeys recipient subscribe (Trigger opts) obj))
  = (patchData, None) →
  doPatch cl client name patchData w1 = (r, w2) →
  exec cl (updateSubscription key GetAnnotationKeys json_Marshal recipient
             subscribe opts) w
  = (match r with
     | Ok _ => ("subscription updated", None)
     | Fail err => ("", Some (foreign err))
     end, w2,
     [CGet client name; CPatch client name patchData]).
Proof.
  intros Hsel Hget Hne Hmarshal Hpatch.
  rewrite (updateSubscription_selected _ _ _ _ _ _ _ _ Hsel). simpl.
  rewrite Hget. simpl.
  rewrite decide_True.
  - rewrite Hmarshal. simpl. rewrite Hpatch. by destruct r.
  - apply map_size_non_empty_iff in Hne. lia.
Qed.

Lemma updateSubscription_patches_witness :
  (exec read_only
     (updateSubscription sample.AnnotationKey (keys_of_trigger sample.AnnotationKey)
        sample.json_Marshal "slack:ops" false
        {| App := "guestbook"; Project := ""; Trigger := "" |})
     sample.cluster).1.1
  = ("", Some (foreign "forbidden")).
Proof.
  rewrite (updateSubscription_patches read_only
             sample.cluster sample.cluster sample.cluster
             sample.AnnotationKey (keys_of_trigger sample.AnnotationKey)
             sample.json_Marshal
             "slack:ops" false {| App := "guestbook"; Project := ""; Trigger := "" |}
             "guestbook" appClient
             (sample.object "argocd" "guestbook"
                {[ sample.AnnotationKey := "slack:ops" ]})
             (MetadataAnnotations
                (annotationsPatch
                   (copyStringMap {[ sample.AnnotationKey := "slack:ops" ]})
                   (mutated sample.AnnotationKey
                      (keys_of_trigger sample.AnnotationKey) "slack:ops" false ""
                      (sample.object "argocd" "guestbook"
                         {[ sample.AnnotationKey := "slack:ops" ]}))))
             (Fail "forbidden")).
  - reflexivity.
  - reflexivity.
  - reflexivity.
  - intros Habs.
    apply (f_equal (λ m : gmap string (option string), m !! sample.AnnotationKey))
      in Habs.
    vm_compute in Habs. discriminate Habs.
  - unfold sample.json_Marshal.
    assert (forallb
              (λ kv : string * option string,
                 sample.ascii_only kv.1 && from_option sample.ascii_only true kv.2)
              (map_to_list
                 (annotationsPatch
                    (copyStringMap {[ sample.AnnotationKey := "slack:ops" ]})
                    (mutated sample.AnnotationKey
                       (keys_of_trigger sample.AnnotationKey) "slack:ops" false ""
                       (sample.object "argocd" "guestbook"
                          {[ sample.AnnotationKey := "slack:ops" ]}))))
            = true) as Hascii by (vm_compute; reflexivity).
    simpl in Hascii |- *. by rewrite Hascii.
  - reflexivity.
Defined.

(** X17: with no application name and a project name, every call of
    [updateSubscription] goes to the project client under the project name,
    the first being the [Get]; the application client is not used. *)
Theorem updateSubscription_project_target (key : string)
    (GetAnnotationKeys : gmap string string → string → list string)
    (json_Marshal : gmap string (option string) → PatchData * option error)
    (recipient : string) (subscribe : bool) (opts : UpdateSubscription)
    {W} (cl : Client W) (w : W) :
  App opts = "" →
  Project opts ≠ "" →
  head (exec cl (updateSubscription key GetAnnotationKeys json_Marshal recipient
                   subscribe opts) w).2
  = Some (CGet appProjClient (Project opts))
  ∧ Forall (λ call, call_collection call = appProjClient
                    ∧ call_name call = Some (Project opts))
      (exec cl (updateSubscription key GetAnnotationKeys json_Marshal recipient
                  subscribe opts) w).2.
Proof.
  intros Happ Hproj. apply updateSubscription_calls.
  unfold selectClient. rewrite Happ. simpl. by rewrite decide_True.
Qed.

Lemma updateSubscription_project_target_witness :
  head (exec fake.client
          (updateSubscription sample.AnnotationKey
             (keys_of_trigger sample.AnnotationKey)
             sample.json_Marshal "slack:ops" true
             {| App := ""; Project := "default"; Trigger := "on-sync" |})
          sample.cluster).2
  = Some (CGet appProjClient "default")
  ∧ Forall (λ call, call_collection call = appProjClient
                    ∧ call_name call = Some "default")
      (exec fake.client
         (updateSubscription sample.AnnotationKey
            (keys_of_trigger sample.AnnotationKey)
            sample.json_Marshal "slack:ops" true
            {| App := ""; Project := "default"; Trigger := "on-sync" |})
         sample.cluster).2.
Proof.
  apply (updateSubscription_project_target sample.AnnotationKey
           (keys_of_trigger sample.AnnotationKey)
           sample.json_Marshal "slack:ops" true
           {| App := ""; Project := "default"; Trigger := "on-sync" |}
           fake.client sample.cluster).
  - reflexivity.
  - discriminate.
Defined.

(** X18: whatever the client answers, [updateSubscription] makes no call,
    or one [Get], or one [Get] followed by one [Patch] of the same name on
    the same client; it never lists a collection. *)
Theorem updateSubscription_call_shape (key : string)
    (GetAnnotationKeys : gmap string string → string → list string)
    (json_Marshal : gmap string (option string) → PatchData * option error)
    (recipient : string) (subscribe : bool) (opts : UpdateSubscription)
    {W} (cl : Client W) (w : W) :
  (exec cl (updateSubscription key GetAnnotationKeys json_Marshal recipient subscribe opts) w).2
  = []
  ∨ ∃ name client,
      (exec cl (updateSubscription key GetAnnotationKeys json_Marshal recipient
                  subscribe opts) w).2 = [CGet client name]
      ∨ ∃ data,
          (exec cl (updateSubscription key GetAnnotationKeys json_Marshal recipient
                      subscribe opts) w).2
          = [CGet client name; CPatch client name data].
Proof.
  destruct (selectClient opts) as [[name client]|] eqn:Hsel.
  - right. exists name, client.
    rewrite (updateSubscription_selected _ _ _ _ _ _ _ _ Hsel). simpl.
    destruct (doGet cl client name w) as [[obj|err] w1]; simpl; [|by left].
    case_decide; simpl; [|by left].
    destruct (json_Marshal _) as [data [err|]]; simpl; [by left|].
    destruct (doPatch cl client name data w1) as [[?|?] w2]; simpl;
      right; by eexists.
  - left. unfold updateSubscription. by rewrite Hsel.
Qed.

(** X19: against the in-memory cluster, when the named object exists, the
    mutated annotations add no key with an empty value, and the body that
    [json.Marshal] returns for the computed patch reads back as that very
    patch (as it does with encoding/json when every key and value is valid
    UTF-8), [updateSubscription] succeeds, the stored object ends up with
    exactly the mutated annotations, and every other object is as it
    was. *)
Theorem updateSubscription_stores (key : string)
    (GetAnnotationKeys : gmap string string → string → list string)
    (json_Marshal : gmap string (option string) → PatchData * option error)
    (recipient : string) (subscribe : bool) (opts : UpdateSubscription)
    (w : fake.World) (name : string) (client : Collection) (obj : Unstructured) :
  selectClient opts = Some (name, client) →
  w client !! name = Some obj →
  (∀ k, mutated key GetAnnotationKeys recipient subscribe (Trigger opts) obj !! k
        = Some "" → is_Some (GetAnnotations obj !! k)) →
  json_Marshal
    (annotationsPatch (copyStringMap (GetAnnotations obj))
       (mutated key GetAnnotationKeys recipient subscribe (Trigger opts) obj))
  = (MetadataAnnotations
       (annotationsPatch (copyStringMap (GetAnnotations obj))
          (mutated key GetAnnotationKeys recipient subscribe (Trigger opts) obj)),
     None) →
  (exec fake.client
     (updateSubscription key GetAnnotationKeys json_Marshal recipient
        subscribe opts) w).1.1
  = ("subscription updated", None)
  ∧ GetAnnotations <$>
      ((exec fake.client
          (updateSubscription key GetAnnotationKeys json_Marshal recipient
             subscribe opts) w).1.2
         client !! name)
    = Some (mutated key GetAnnotationKeys recipient subscribe (Trigger opts) obj)
  ∧ ∀ c n, (c, n) ≠ (client, name) →
      (exec fake.client
         (updateSubscription key GetAnnotationKeys json_Marshal recipient
            subscribe opts) w).1.2
        c !! n = w c !! n.
Proof.
  intros Hsel Hobj Hnew Hmarshal.
  rewrite (updateSubscription_selected _ _ _ _ _ _ _ _ Hsel). simpl.
  unfold fake.get. rewrite Hobj. simpl.
  rewrite Hmarshal. rewrite copyStringMap_id.
  case_decide as Hsize; simpl.
  - unfold fake.patch. rewrite Hobj. simpl.
    split; [done|]. split.
    + rewrite decide_True by done. rewrite lookup_insert_eq. simpl.
      by rewrite merge_annotationsPatch.
    + intros c n Hne. case_decide as Hc; [|done].
      subst c. rewrite lookup_insert_ne; [done|]. by intros ->.
  - split; [done|]. split; [|done].
    rewrite Hobj. simpl. f_equal.
    pose proof (merge_annotationsPatch _ _ Hnew) as Hm.
    assert (annotationsPatch (GetAnnotations obj)
              (mutated key GetAnnotationKeys recipient subscribe (Trigger opts) obj)
            = ∅) as Hp.
    { apply map_size_empty_iff. lia. }
    by rewrite Hp, merge_empty in Hm.
Qed.

Lemma updateSubscription_stores_witness :
  GetAnnotations <$>
    ((exec fake.client
        (updateSubscription sample.AnnotationKey
           (keys_of_trigger sample.AnnotationKey) sample.json_Marshal
           "slack:dev" true
           {| App := "guestbook"; Project := ""; Trigger := "" |})
        sample.cluster).1.2 appClient !! "guestbook")
  = Some (mutated sample.AnnotationKey (keys_of_trigger sample.AnnotationKey)
            "slack:dev" true ""
            (sample.object "argocd" "guestbook"
               {[ sample.AnnotationKey := "slack:ops" ]})).
Proof.
  refine (proj1 (proj2 (updateSubscription_stores sample.AnnotationKey
            (keys_of_trigger sample.AnnotationKey) sample.json_Marshal
            "slack:dev" true
            {| App := "guestbook"; Project := ""; Trigger := "" |}
            sample.cluster "guestbook" appClient
            (sample.object "argocd" "guestbook"
               {[ sample.AnnotationKey := "slack:ops" ]}) _ _ _ _))).
  - reflexivity.
  - reflexivity.
  - intros k. destruct (decide (k = sample.AnnotationKey)) as [->|Hne].
    + intros _. by eexists.
    + unfold mutated. rewrite addSubscription_lookup_other by done.
      simpl. rewrite lookup_singleton_ne by done. discriminate.
  - unfold sample.json_Marshal.
    assert (forallb
              (λ kv : string * option string,
                 sample.ascii_only kv.1 && from_option sample.ascii_only true kv.2)
              (map_to_list
                 (annotationsPatch
                    (copyStringMap {[ sample.AnnotationKey := "slack:ops" ]})
                    (mutated sample.AnnotationKey
                       (keys_of_trigger sample.AnnotationKey) "slack:dev" true ""
                       (sample.object "argocd" "guestbook"
                          {[ sample.AnnotationKey := "slack:ops" ]}))))
            = true) as Hascii by (vm_compute; reflexivity).
    simpl in Hascii |- *. by rewrite Hascii.
Defined.

(** ** listSubscriptions against a client *)

Section ScanResult.
Context {Destination : Type} `{Countable Destination}.
Variable GetDestinations : gmap string string → result (gmap Destination bool).

(** When every item parses, the loop returns the names of the items that
    list the destination, after those found before, in the order of the
    items. *)
Lemma scan_subscribed dest (items : list Unstructured) found :
  Forall (λ it, ∃ d, GetDestinations (GetAnnotations it) = Ok d) items →
  scan GetDestinations dest items found
  = Ok (found ++ subscribed GetDestinations dest items)%list.
Proof.
  intros Hitems. revert found.
  induction Hitems as [|it items [d Hd] _ IH]; intros found; simpl.
  - unfold subscribed. simpl. by rewrite app_nil_r.
  - assert (lists_dest GetDestinations dest it = default false (d !! dest))
      as Hl by (unfold lists_dest; by rewrite Hd).
    rewrite Hd. unfold subscribed. rewrite filter_cons.
    case_decide as Hb; rewrite Hl in Hb.
    + rewrite Hb, IH. simpl. by rewrite <- app_assoc.
    + apply not_true_is_false in Hb. rewrite Hb. apply IH.
Qed.
End ScanResult.

(** X20: when the recipient does not parse, [listSubscriptions] returns the
    parse error with the empty text at once: it is a program without calls,
    so neither collection is listed. *)
Theorem listSubscriptions_invalid_recipient
    {Destination : Type} `{Countable Destination}
    (ParseDestinationAndTemplate : string → result (Destination * string))
    (GetDestinations : gmap string string → result (gmap Destination bool))
    (recipient msg : string) :
  ParseDestinationAndTemplate recipient = Fail msg →
  listSubscriptions ParseDestinationAndTemplate GetDestinations recipient
  = ret ("", Some (foreign msg))
  ∧ ∀ W (cl : Client W) (w : W),
      exec cl (listSubscriptions ParseDestinationAndTemplate GetDestinations
                 recipient) w
      = ("", Some (foreign msg), w, []).
Proof.
  intros Hparse. unfold listSubscriptions. rewrite Hparse. done.
Qed.

Lemma listSubscriptions_invalid_recipient_witness :
  listSubscriptions sample.ParseDestinationAndTemplate sample.GetDestinations
    "nobody"
  = ret ("", Some (foreign "invalid recipient nobody"))
  ∧ ∀ W (cl : Client W) (w : W),
      exec cl (listSubscriptions sample.ParseDestinationAndTemplate
                 sample.GetDestinations "nobody") w
      = ("", Some (foreign "invalid recipient nobody"), w, []).
Proof.
  apply (listSubscriptions_invalid_recipient sample.ParseDestinationAndTemplate
           sample.GetDestinations "nobody" "invalid recipient nobody").
  reflexivity.
Defined.

(** X21: whatever the client answers, the calls of [listSubscriptions] are
    an initial part of: list the applications, list the projects. It never
    gets or patches an object, and never lists the projects first. *)
Theorem listSubscriptions_only_lists
    {Destination : Type} `{Countable Destination}
    (ParseDestinationAndTemplate : string → result (Destination * string))
    (GetDestinations : gmap string string → result (gmap Destination bool))
    (recipient : string) {W} (cl : Client W) (w : W) :
  (exec cl (listSubscriptions ParseDestinationAndTemplate GetDestinations
              recipient) w).2
  `prefix_of` [CList appClient; CList appProjClient].
Proof.
  unfold listSubscriptions.
  destruct (ParseDestinationAndTemplate recipient) as [[dest template]|]; simpl.
  - destruct (doList cl appClient w) as [[appList|] w1]; simpl.
    + destruct (scan GetDestinations dest appList []) as [apps|]; simpl.
      * destruct (doList cl appProjClient w1) as [[appProjList|] w2]; simpl.
        -- by destruct (scan GetDestinations dest appProjList []).
        -- done.
      * by exists [CList appProjClient].
    + by exists [CList appProjClient].
  - by exists [CList appClient; CList appProjClient].
Qed.

(** X22: a failure to list the applications ends [listSubscriptions] with
    that error, and the projects are not listed; a failure to list the
    projects, after the applications have been scanned, ends it with that
    error as well. *)
Theorem listSubscriptions_list_fails
    {Destination : Type} `{Countable Destination}
    (ParseDestinationAndTemplate : string → result (Destination * string))
    (GetDestinations : gmap string string → result (gmap Destination bool))
    (recipient : string) (dest : Destination) (template : string)
    {W} (cl : Client W) (w : W) :
  ParseDestinationAndTemplate recipient = Ok (dest, template) →
  (∀ msg w1,
     doList cl appClient w = (Fail msg, w1) →
     exec cl (listSubscriptions ParseDestinationAndTemplate GetDestinations
                recipient) w
     = ("", Some (foreign msg), w1, [CList appClient]))
  ∧ (∀ appList w1 msg w2,
       doList cl appClient w = (Ok appList, w1) →
       Forall (λ it, ∃ d, GetDestinations (GetAnnotations it) = Ok d) appList →
       doList cl appProjClient w1 = (Fail msg, w2) →
       exec cl (listSubscriptions ParseDestinationAndTemplate GetDestinations
                  recipient) w
       = ("", Some (foreign msg), w2, [CList appClient; CList appProjClient])).
Proof.
  intros Hparse. unfold listSubscriptions. rewrite Hparse. simpl. split.
  - intros msg w1 ->. done.
  - intros appList w1 msg w2 -> Happs Hproj.
    rewrite (scan_subscribed _ _ _ _ Happs). simpl. by rewrite Hproj.
Qed.

Lemma listSubscriptions_list_fails_witness :
  exec unavailable
    (listSubscriptions sample.ParseDestinationAndTemplate sample.GetDestinations
       "slack:ops") ()
  = ("", Some (foreign "unavailable"), (), [CList appClient]).
Proof.
  refine (proj1 (listSubscriptions_list_fails
            sample.ParseDestinationAndTemplate sample.GetDestinations
            "slack:ops" "slack:ops" "" unavailable () _)
          "unavailable" () _).
  - reflexivity.
  - reflexivity.
Defined.

(** X23: when the recipient parses, both listings succeed and every listed
    resource parses, [listSubscriptions] returns without error the text
    built from the [namespace/name] of the applications and of the projects
    that list the recipient's destination, each in listing order, after
    exactly the two list calls. *)
Theorem listSubscriptions_reports
    {Destination : Type} `{Countable Destination}
    (ParseDestinationAndTemplate : string → result (Destination * string))
    (GetDestinations : gmap string string → result (gmap Destination bool))
    (recipient : string) (dest : Destination) (template : string)
    {W} (cl : Client W) (w w1 w2 : W) (appList appProjList : list Unstructured) :
  ParseDestinationAndTemplate recipient = Ok (dest, template) →
  doList cl appClient w = (Ok appList, w1) →
  doList cl appProjClient w1 = (Ok appProjList, w2) →
  Forall (λ it, ∃ d, GetDestinations (GetAnnotations it) = Ok d) appList →
  Forall (λ it, ∃ d, GetDestinations (GetAnnotations it) = Ok d) appProjList →
  exec cl (listSubscriptions ParseDestinationAndTemplate GetDestinations
             recipient) w
  = (response recipient (subscribed GetDestinations dest appList)
       (subscribed GetDestinations dest appProjList), None, w2,
     [CList appClient; CList appProjClient]).
Proof.
  intros Hparse Hlist1 Hlist2 Happs Hprojs.
  unfold listSubscriptions. rewrite Hparse. simpl. rewrite Hlist1.
  rewrite (scan_subscribed _ _ _ _ Happs). simpl. rewrite Hlist2.
  by rewrite (scan_subscribed _ _ _ _ Hprojs).
Qed.

Lemma listSubscriptions_reports_witness :
  (exec fake.client
     (listSubscriptions sample.ParseDestinationAndTemplate sample.GetDestinations
        "slack:ops") sample.cluster).1.1
  = ("The slack:ops is subscribed to 1 applications and 0 projects.
Applications: argocd/guestbook.", None).
Proof.
  rewrite (listSubscriptions_reports
             sample.ParseDestinationAndTemplate sample.GetDestinations
             "slack:ops" "slack:ops" ""
             fake.client sample.cluster sample.cluster sample.cluster
             [sample.object "argocd" "guestbook"
                {[ sample.AnnotationKey := "slack:ops" ]}]
             [sample.object "argocd" "default" ∅]).
  - vm_compute. reflexivity.
  - reflexivity.
  - vm_compute. reflexivity.
  - vm_compute. reflexivity.
  - repeat constructor. eexists. vm_compute. reflexivity.
  - repeat constructor. eexists. vm_compute. reflexivity.
Defined.

(** ** The handler *)

(** Running a sequence runs its two parts one after the other. *)
Lemma exec_bind {W A B} (cl : Client W) (p : prog A) (f : A → prog B) (w : W) :
  exec cl (bind p f) w
  = let '(a, w1, calls1) := exec cl p w in
    let '(b, w2, calls2) := exec cl (f a) w1 in
    (b, w2, (calls1 ++ calls2)%list).
Proof.
  revert w. induction p as [a|c name k IH|c k IH|c name data k IH];
    intros w; simpl.
  - by destruct (exec cl (f a) w) as [[b w2] calls2].
  - destruct (doGet cl c name w) as [r w1]. rewrite IH.
    destruct (exec cl (k r) w1) as [[a w2] calls1].
    by destruct (exec cl (f a) w2) as [[b w3] calls2].
  - destruct (doList cl c w) as [r w1]. rewrite IH.
    destruct (exec cl (k r) w1) as [[a w2] calls1].
    by destruct (exec cl (f a) w2) as [[b w3] calls2].
  - destruct (doPatch cl c name data w) as [r w1]. rewrite IH.
    destruct (exec cl (k r) w1) as [[a w2] calls1].
    by destruct (exec cl (f a) w2) as [[b w3] calls2].
Qed.

(** X24: a request that the adapter cannot parse is answered with the text
    of the parse error, and no client is called. *)
Theorem handler_parse_error (key : string)
    (GetAnnotationKeys : gmap string string → string → list string)
    (json_Marshal : gmap string (option string) → PatchData * option error)
    {Destination : Type} `{Countable Destination}
    (ParseDestinationAndTemplate : string → result (Destination * string))
    (GetDestinations : gmap string string → result (gmap Destination bool))
    {Request : Type} (Parse : Request → result Command) (r : Request)
    (msg : string) {W} (cl : Client W) (w : W) :
  Parse r = Fail msg →
  exec cl (handler key GetAnnotationKeys json_Marshal ParseDestinationAndTemplate
             GetDestinations Parse r) w
  = (msg, w, []).
Proof. intros Hparse. unfold handler. by rewrite Hparse. Qed.

Lemma handler_parse_error_witness :
  exec fake.client
    (handler sample.AnnotationKey (keys_of_trigger sample.AnnotationKey)
      sample.json_Marshal
       sample.ParseDestinationAndTemplate sample.GetDestinations
       (λ _ : string, Fail "no command") "hello") sample.cluster
  = ("no command", sample.cluster, []).
Proof.
  apply (handler_parse_error sample.AnnotationKey
           (keys_of_trigger sample.AnnotationKey)
           sample.json_Marshal
           sample.ParseDestinationAndTemplate sample.GetDestinations
           (λ _ : string, Fail "no command") "hello" "no command"
           fake.client sample.cluster).
  reflexivity.
Defined.

(** X25: for a request that parses, the handler makes exactly the calls of
    [execute] on the parsed command and leaves the same world; it answers
    with the text [execute] returned, or, when [execute] returned an error,
    with "cannot execute command: " followed by the message of the error. *)
Theorem handler_replies (key : string)
    (GetAnnotationKeys : gmap string string → string → list string)
    (json_Marshal : gmap string (option string) → PatchData * option error)
    {Destination : Type} `{Countable Destination}
    (ParseDestinationAndTemplate : string → result (Destination * string))
    (GetDestinations : gmap string string → result (gmap Destination bool))
    {Request : Type} (Parse : Request → result Command) (r : Request)
    (cmd : Command) {W} (cl : Client W) (w w' : W)
    (res : string) (err : option error) (calls : list Call) :
  Parse r = Ok cmd →
  exec cl (execute key GetAnnotationKeys json_Marshal ParseDestinationAndTemplate
             GetDestinations cmd) w
  = (res, err, w', calls) →
  exec cl (handler key GetAnnotationKeys json_Marshal ParseDestinationAndTemplate
             GetDestinations Parse r) w
  = (match err with
     | Some err => "cannot execute command: " +:+ Error err
     | None => res
     end, w', calls).
Proof.
  intros Hparse Hexec. unfold handler. rewrite Hparse, exec_bind, Hexec.
  destruct err; simpl; by rewrite app_nil_r.
Qed.

Lemma handler_replies_witness :
  exec fake.client
    (handler sample.AnnotationKey (keys_of_trigger sample.AnnotationKey)
      sample.json_Marshal
       sample.ParseDestinationAndTemplate sample.GetDestinations
       (λ recipient : string,
          Ok {| Recipient := recipient; ListSubscriptions := None;
                Subscribe := Some {| App := "missing"; Project := "";
                                     Trigger := "" |};
                Unsubscribe := None |})
       "slack:ops") sample.cluster
  = ("cannot execute command: not found", sample.cluster,
     [CGet appClient "missing"]).
Proof.
  apply (handler_replies sample.AnnotationKey
           (keys_of_trigger sample.AnnotationKey)
           sample.json_Marshal
           sample.ParseDestinationAndTemplate sample.GetDestinations
           (λ recipient : string,
              Ok {| Recipient := recipient; ListSubscriptions := None;
                    Subscribe := Some {| App := "missing"; Project := "";
                                         Trigger := "" |};
                    Unsubscribe := None |})
           "slack:ops"
           {| Recipient := "slack:ops"; ListSubscriptions := None;
              Subscribe := Some {| App := "missing"; Project := ""; Trigger := "" |};
              Unsubscribe := None |}
           fake.client sample.cluster sample.cluster
           "" (Some (foreign "not found")) [CGet appClient "missing"]).
  - reflexivity.
  - reflexivity.
Defined.

(** X26: a subscribe or unsubscribe request that names neither an
    application nor a project is answered with "cannot execute command:
    either application or project name must be specified", and no client is
    called. *)
Theorem handler_missing_target (key : string)
    (GetAnnotationKeys : gmap string string → string → list string)
    (json_Marshal : gmap string (option string) → PatchData * option error)
    {Destination : Type} `{Countable Destination}
    (ParseDestinationAndTemplate : string → result (Destination * string))
    (GetDestinations : gmap string string → result (gmap Destination bool))
    {Request : Type} (Parse : Request → result Command) (r : Request)
    (cmd : Command) (opts : UpdateSubscription) {W} (cl : Client W) (w : W) :
  Parse r = Ok cmd →
  ListSubscriptions cmd = None →
  Subscribe cmd = Some opts
  ∨ (Subscribe cmd = None ∧ Unsubscribe cmd = Some opts) →
  App opts = "" →
  Project opts = "" →
  exec cl (handler key GetAnnotationKeys json_Marshal ParseDestinationAndTemplate
             GetDestinations Parse r) w
  = ("cannot execute command: either application or project name must be specified",
     w, []).
Proof.
  intros Hparse Hlist Hsub Happ Hproj. unfold handler. rewrite Hparse.
  assert (∀ b, updateSubscription key GetAnnotationKeys json_Marshal (Recipient cmd) b opts
               = ret ("", Some (errors_New
                        "either application or project name must be specified")))
    as Hupd.
  { intros b. unfold updateSubscription, selectClient. by rewrite Happ, Hproj. }
  unfold execute. rewrite Hlist.
  destruct Hsub as [->|[-> ->]]; by rewrite Hupd.
Qed.

Lemma handler_missing_target_witness :
  exec fake.client
    (handler sample.AnnotationKey (keys_of_trigger sample.AnnotationKey)
      sample.json_Marshal
       sample.ParseDestinationAndTemplate sample.GetDestinations
       (λ recipient : string,
          Ok {| Recipient := recipient; ListSubscriptions := None;
                Subscribe := None;
                Unsubscribe := Some {| App := ""; Project := "";
                                       Trigger := "on-sync" |} |})
       "slack:ops") sample.cluster
  = ("cannot execute command: either application or project name must be specified",
     sample.cluster, []).
Proof.
  apply (handler_missing_target sample.AnnotationKey
           (keys_of_trigger sample.AnnotationKey)
           sample.json_Marshal
           sample.ParseDestinationAndTemplate sample.GetDestinations
           (λ recipient : string,
              Ok {| Recipient := recipient; ListSubscriptions := None;
                    Subscribe := None;
                    Unsubscribe := Some {| App := ""; Project := "";
                                           Trigger := "on-sync" |} |})
           "slack:ops"
           {| Recipient := "slack:ops"; ListSubscriptions := None;
              Subscribe := None;
              Unsubscribe := Some {| App := ""; Project := ""; Trigger := "on-sync" |} |}
           {| App := ""; Project := ""; Trigger := "on-sync" |}
           fake.client sample.cluster).
  - reflexivity.
  - reflexivity.
  - right. split; reflexivity.
  - reflexivity.
  - reflexivity.
Defined.
